(** * IRVE dashboard: the cleaning pipeline and the outlier filter

    A shallow embedding of the data path of the Streamlit application:
    [utils/io.py] (column resolver), [utils/geo.py] and [utils/cleaning.py]
    (field extractors, coordinate consolidation, [clean_irve]) and the
    outlier removal and persistence steps of [sections/data_processing.py].

    Conventions of the model.
    - A pandas cell is a [cell]: [None], a number, a text or a boolean.
    - A number is a [float64]: not-a-number, one of the two infinities, or a
      finite value carried as a rational.  Only comparisons and [clip] are
      applied to numbers by the code, and those are exact on the value a
      double denotes; [-0.0] and [0.0] are one value here.
    - Text is a [string], the bytes of its UTF-8 form; case folding, white
      space, [\d], [\w] and [\b] are the ASCII ones, so a text with a
      capital letter, a digit or a space outside ASCII is outside the model.
    - A [DataFrame] is its column labels and its rows; a row maps a label to
      a cell.  Every column operation of the source is elementwise, so it is
      written as a map over the rows.
    - [pd.to_numeric] on text and [str] on a finite number belong to the
      libraries; they are Section variables ([parse_float], [str_float]).
    - pandas gives the [.str] accessor to a column that holds text and
      raises [AttributeError] on a column of numbers.  A table has no dtypes
      here, and [str_contains] gives the value computed when the accessor
      exists; [holds_text] tells that it does, and is a hypothesis of the
      statements that read the connector text. *)

From Stdlib Require Import QArith Qminmax Lqa String Ascii.
From stdpp Require Import base option strings list gmap.

Open Scope string_scope.

(** ** Numbers *)

Module Float64.

Inductive float64 : Type :=
| NaN
| NInf
| Fin (q : Q)
| PInf.

(** IEEE comparison: no result as soon as one side is not a number. *)
Definition fcompare (x y : float64) : option comparison :=
  match x, y with
  | NaN, _ | _, NaN => None
  | NInf, NInf => Some Eq
  | NInf, _ => Some Lt
  | _, NInf => Some Gt
  | PInf, PInf => Some Eq
  | PInf, _ => Some Gt
  | _, PInf => Some Lt
  | Fin a, Fin b => Some (a ?= b)%Q
  end.

(** [x <= y], [x < y], [x >= y], [x > y]; all false on [NaN]. *)
Definition fle (x y : float64) : bool :=
  match fcompare x y with Some Lt | Some Eq => true | _ => false end.
Definition flt (x y : float64) : bool :=
  match fcompare x y with Some Lt => true | _ => false end.
Definition fge (x y : float64) : bool := fle y x.
Definition fgt (x y : float64) : bool := flt y x.

(** [pd.isna] on a number. *)
Definition isnan (x : float64) : bool :=
  match x with NaN => true | _ => false end.

(** [Series.clip(lower=l)], one element: [x] where it is missing or
    [x >= l], else [l]. *)
Definition clip_lower (l x : float64) : float64 :=
  if isnan x || fge x l then x else l.

(** [Series.between(lo, hi, inclusive="both")], one element:
    [(x >= lo) & (x <= hi)]. *)
Definition between (lo hi x : float64) : bool := fge x lo && fle x hi.

(** [Series.fillna(other)], one element. *)
Definition fillna (x other : float64) : float64 :=
  if isnan x then other else x.

Definition of_Z (z : Z) : float64 := Fin (inject_Z z).

End Float64.
Export Float64.

(** ** Text *)

Module Text.

Definition is_digit (c : ascii) : bool :=
  let n := nat_of_ascii c in (48 <=? n)%nat && (n <=? 57)%nat.
Definition is_upper (c : ascii) : bool :=
  let n := nat_of_ascii c in (65 <=? n)%nat && (n <=? 90)%nat.
Definition is_lower (c : ascii) : bool :=
  let n := nat_of_ascii c in (97 <=? n)%nat && (n <=? 122)%nat.

(** [\w]: letter, digit or underscore. *)
Definition is_word (c : ascii) : bool :=
  is_digit c || is_upper c || is_lower c || Ascii.eqb c "_"%char.

Definition lower_char (c : ascii) : ascii :=
  if is_upper c then ascii_of_nat (nat_of_ascii c + 32) else c.

(** [str.lower] on the ASCII capitals; a capital outside ASCII, which
    Python folds too, is left as it is. *)
Fixpoint lower (s : string) : string :=
  match s with
  | EmptyString => EmptyString
  | String c s' => String (lower_char c) (lower s')
  end.

Fixpoint starts_with (p s : string) : bool :=
  match p, s with
  | EmptyString, _ => true
  | String a p', String b s' => Ascii.eqb a b && starts_with p' s'
  | String _ _, EmptyString => false
  end.

(** [sub in s]: [re.search] of a pattern without metacharacters. *)
Fixpoint contains (sub s : string) : bool :=
  starts_with sub s ||
  match s with
  | EmptyString => false
  | String _ s' => contains sub s'
  end.

(** [re.search("a|b|...", s)] for alternatives without metacharacters. *)
Definition contains_any (subs : list string) (s : string) : bool :=
  existsb (fun sub => contains sub s) subs.

(** The same with [case=False]: both sides folded to lower case. *)
Definition contains_any_nocase (subs : list string) (s : string) : bool :=
  contains_any (map lower subs) (lower s).

Fixpoint take (n : nat) (s : string) : string :=
  match n, s with
  | S n', String c s' => String c (take n' s')
  | _, _ => EmptyString
  end.

(** [n] digits at the head of [s], then the end of [s] or a character
    that is not a word character: [\d{n}\b] anchored at the head. *)
Fixpoint digits_then_boundary (n : nat) (s : string) : bool :=
  match n, s with
  | O, EmptyString => true
  | O, String c _ => negb (is_word c)
  | S n', String c s' => is_digit c && digits_then_boundary n' s'
  | S _, EmptyString => false
  end.

(** [re.search(r"\b(\d{5})\b", s)], scanning left to right; [prev_word]
    tells whether the character before the head of [s] is a word
    character (false at the start of the text).  Returns group 1.  Digits
    and word characters are the ASCII ones: this is the search of Python on
    a text of ASCII characters, and on any text in which no character
    outside ASCII touches a digit or is one. *)
Fixpoint search_cp_from (prev_word : bool) (s : string) : option string :=
  match s with
  | EmptyString => None
  | String c s' =>
      if negb prev_word && digits_then_boundary 5 s
      then Some (take 5 s)
      else search_cp_from (is_word c) s'
  end.

Definition search_cp (s : string) : option string := search_cp_from false s.

(** [re.match(r"^(\d{2})", s)], group 1: what [str.extract] keeps. *)
Definition extract_2_digits (s : string) : option string :=
  match s with
  | String a (String b _) =>
      if is_digit a && is_digit b
      then Some (String a (String b EmptyString)) else None
  | _ => None
  end.

End Text.
Export Text.

(** ** Tables *)

Module Frame.

Inductive cell : Type :=
| CNone
| CNum (x : float64)
| CStr (s : string)
| CBool (b : bool).

Record DataFrame : Type := mkDF {
  columns : list string;
  rows : list (gmap string cell)
}.

(** [c in df.columns]. *)
Definition has (df : DataFrame) (c : string) : bool :=
  bool_decide (c ∈ columns df).

(** The cell of column [c] in a row; every read of the source is guarded
    by [has], so the default is never observed on a well-formed table. *)
Definition get (r : gmap string cell) (c : string) : cell :=
  default CNone (r !! c).

(** [df[c] = e], with [e] an elementwise expression over the row: the
    column is replaced in place, or appended when new. *)
Definition assign (c : string) (e : gmap string cell → cell)
    (df : DataFrame) : DataFrame :=
  {| columns := if has df c then columns df else columns df ++ [c];
     rows := (λ r, <[c := e r]> r) <$> rows df |}.

(** [df[cols]] for labels that all exist. *)
Definition select (cols : list string) (df : DataFrame) : DataFrame :=
  {| columns := cols;
     rows := (λ r, filter (λ kv, kv.1 ∈ cols) r) <$> rows df |}.

(** [df.drop(columns=[c])]. *)
Definition drop (c : string) (df : DataFrame) : DataFrame :=
  {| columns := List.filter (λ c', negb (String.eqb c' c)) (columns df);
     rows := delete c <$> rows df |}.

(** [df[mask]], the mask given row by row. *)
Definition keep (mask : gmap string cell → bool) (df : DataFrame)
    : DataFrame :=
  {| columns := columns df; rows := List.filter mask (rows df) |}.

(** [pd.isna] on a cell. *)
Definition isna (c : cell) : bool :=
  match c with
  | CNone => true
  | CNum x => isnan x
  | _ => false
  end.

(** [Series.fillna(other)], one element. *)
Definition cell_fillna (c other : cell) : cell :=
  if isna c then other else c.

(** The number held by a cell of a numeric column (missing is [NaN]). *)
Definition num (c : cell) : float64 :=
  match c with
  | CNum x => x
  | CBool b => of_Z (if b then 1 else 0)
  | _ => NaN
  end.

(** A cell as an operand of [<=], [>] or [between] against a number:
    missing compares false, text raises [TypeError] ([None] here). *)
Definition comparable (c : cell) : option float64 :=
  match c with
  | CStr _ => None
  | _ => Some (num c)
  end.

(** [df.dropna(subset=[c])]. *)
Definition dropna (c : string) (df : DataFrame) : DataFrame :=
  keep (λ r, negb (isna (get r c))) df.

(** [Series.str.contains("a|b|...", case=..., na=False)], one element:
    a cell that is not text gives [na].  This is the value on a column
    that has the [.str] accessor, see [holds_text] below; on a column
    without text pandas raises instead. *)
Definition str_contains (pats : list string) (nocase : bool) (c : cell)
    : bool :=
  match c with
  | CStr s => if nocase then contains_any_nocase pats s
              else contains_any pats s
  | _ => false
  end.

(** Column [c] holds a text on some row: its dtype is then [object] and
    [Series.str] exists, whatever the other cells hold. *)
Definition holds_text (c : string) (df : DataFrame) : bool :=
  existsb (λ r, match get r c with CStr _ => true | _ => false end)
          (rows df).

(** [str(x)], which is also [astype(str)] on one element; [str_float] is
    Python's text for a finite number. *)
Definition str (str_float : Q → string) (c : cell) : string :=
  match c with
  | CNone => "None"
  | CNum NaN => "nan"
  | CNum NInf => "-inf"
  | CNum PInf => "inf"
  | CNum (Fin q) => str_float q
  | CStr s => s
  | CBool true => "True"
  | CBool false => "False"
  end.

(** A Python [str | None] result stored in a cell. *)
Definition of_option (o : option string) : cell :=
  match o with
  | Some s => CStr s
  | None => CNone
  end.

End Frame.
Export Frame.

(** ** Regular expressions of [utils/io.py]

    [re.fullmatch] for the patterns the resolver builds, [.*cand.*]: literal
    characters, [.] (any character but a newline) and a postfix [*].  It
    agrees with Python on every pattern whose other characters are not
    metacharacters, which holds for all candidate lists of the module. *)

Module Re.

Inductive atom : Type := Lit (c : ascii) | Dot.
Inductive item : Type := One (a : atom) | Star (a : atom).

Fixpoint parse (p : string) : list item :=
  match p with
  | EmptyString => []
  | String c p' =>
      let a := if Ascii.eqb c "."%char then Dot else Lit c in
      match p' with
      | String "*"%char p'' => Star a :: parse p''
      | _ => One a :: parse p'
      end
  end.

Definition atom_matches (a : atom) (c : ascii) : bool :=
  match a with
  | Lit x => Ascii.eqb x c
  | Dot => negb (Ascii.eqb c "010"%char)
  end.

Fixpoint match_here (items : list item) (s : string) : bool :=
  match items with
  | [] => match s with EmptyString => true | _ => false end
  | One a :: rest =>
      match s with
      | String c s' => atom_matches a c && match_here rest s'
      | EmptyString => false
      end
  | Star a :: rest =>
      (fix star (s : string) : bool :=
         match_here rest s ||
         match s with
         | String c s' => atom_matches a c && star s'
         | EmptyString => false
         end) s
  end.

Definition fullmatch (pattern s : string) : bool :=
  match_here (parse pattern) s.

End Re.

(** ** [utils/io.py]: the column resolver *)

Module Io.

Definition LAT_CANDS := ["y_latitude"; "latitude"; "lat"; "ylat"].
Definition LON_CANDS := ["x_longitude"; "longitude"; "lon"; "xlong"].
Definition POWER_CANDS := ["puissance_nominale"; "puissance_kw"; "puissance"].
Definition STATUS_CANDS := ["etat_pdc"; "statut_pdc"; "statut"].

Section FirstCol.

(** [re.fullmatch(pattern, text) is not None]. *)
Variable re_fullmatch : string → string → bool.

(** [low = {c.lower(): c for c in df.columns}]: a later column replaces
    an earlier one under the same key. *)
Definition lowered (cols : list string) : gmap string string :=
  foldl (λ low c, <[lower c := c]> low) ∅ cols.

(** [for cand in candidates: if cand in low: return low[cand]]. *)
Fixpoint first_exact (low : gmap string string)
    (candidates : list string) : option string :=
  match candidates with
  | [] => None
  | cand :: rest =>
      match low !! cand with
      | Some c => Some c
      | None => first_exact low rest
      end
  end.

(** [any(re.fullmatch(rf".*{cand}.*", c.lower()) for cand in candidates)]. *)
Definition loose (candidates : list string) (c : string) : bool :=
  existsb (λ cand, re_fullmatch (".*" ++ cand ++ ".*") (lower c))
          candidates.

(** [for c in df.columns: if any(...): return c]. *)
Fixpoint first_loose (cols candidates : list string) : option string :=
  match cols with
  | [] => None
  | c :: rest =>
      if loose candidates c then Some c else first_loose rest candidates
  end.

Definition _first_col (df : DataFrame) (candidates : list string)
    : option string :=
  match first_exact (lowered (columns df)) candidates with
  | Some c => Some c
  | None => first_loose (columns df) candidates
  end.

End FirstCol.

End Io.

(** ** [utils/geo.py] *)

Module Geo.

Section ExtractCodePostal.

Variable str_float : Q → string.

Definition extract_code_postal (adresse : cell) : option string :=
  if isna adresse then None
  else
    match search_cp (str str_float adresse) with
    | Some group1 => Some group1
    | None => None
    end.

End ExtractCodePostal.

End Geo.

(** ** [utils/cleaning.py] *)

Module Cleaning.

Section Cleaning.

(** [pd.to_numeric(text, errors="coerce")]: [NaN] when the text is not
    a number. *)
Variable parse_float : string → float64.
Variable str_float : Q → string.

(** [pd.to_numeric(series, errors="coerce")], one element. *)
Definition to_numeric (c : cell) : float64 :=
  match c with
  | CNone => NaN
  | CNum x => x
  | CStr s => parse_float s
  | CBool b => of_Z (if b then 1 else 0)
  end.

(** [df[cp_col].astype(str).str.extract(r"^(\d{2})", expand=False)];
    no match is [NaN]. *)
Definition add_departement_from_cp_simple (df : DataFrame)
    (cp_col : string) : DataFrame :=
  if has df cp_col then
    assign "departement"
      (λ r, match extract_2_digits (str str_float (get r cp_col)) with
            | Some d => CStr d
            | None => CNum NaN
            end) df
  else
    assign "departement" (λ _, CNone) df.

Definition extract_code_postal (adresse : cell) : option string :=
  if isna adresse then None
  else
    match search_cp (str str_float adresse) with
    | Some group1 => Some group1
    | None => None
    end.

Definition cols : list string :=
  [ "id_station"; "id_pdc"; "nom_station";
    "adresse_station"; "code_postal"; "nom_commune";
    "code_departement"; "nom_departement"; "code_region"; "nom_region";
    "latitude"; "longitude";
    "consolidated_longitude"; "consolidated_latitude";
    "consolidated_lagitude";
    "accessibilite"; "conditions_acces"; "horaires"; "reservation";
    "modalites_paiement";
    "etat_pdc"; "statut_pdc"; "date_maj"; "date_mise_en_service";
    "puissance_nominale"; "type_prise"; "connecteur"; "format_recharge";
    "type_charge"; "nb_points_charge";
    "operateur"; "nom_operateur"; "enseigne"; "reseau"; "proprietaire";
    "source"; "last_update";
    "code_insee_commune";
    "departement" ].

(** 1) [present = [c for c in cols if c in df.columns]; df = df[present]]. *)
Definition select_present (df : DataFrame) : DataFrame :=
  select (List.filter (has df) cols) df.

(** 2) One of the three blocks of the coordinate step:
<<
  if fallback in df.columns:
      df[target] = pd.to_numeric(df[target], errors="coerce")
                   if target in df.columns else np.nan
      df[target] = df[target].fillna(
                       pd.to_numeric(df[fallback], errors="coerce"))
>> *)
Definition fill_from (target fallback : string) (df : DataFrame)
    : DataFrame :=
  if has df fallback then
    let df1 :=
      if has df target
      then assign target (λ r, CNum (to_numeric (get r target))) df
      else assign target (λ _, CNum NaN) df in
    assign target
      (λ r, cell_fillna (get r target)
              (CNum (to_numeric (get r fallback)))) df1
  else df.

Definition consolidate_coordinates (df : DataFrame) : DataFrame :=
  let df := fill_from "longitude" "consolidated_longitude" df in
  let df := fill_from "latitude" "consolidated_latitude" df in
  fill_from "latitude" "consolidated_lagitude" df.

Definition _bin (x : float64) : string :=
  if isnan x then "inconnu"
  else if fle x (of_Z 7) then "AC_lente"
  else if fle x (of_Z 22) then "AC_standard"
  else if fle x (of_Z 49) then "DC_moyenne"
  else if fle x (of_Z 149) then "DC_rapide"
  else "DC_ultra".

(** 3) [puissance_kw] and [categorie_puissance]. *)
Definition derive_power (df : DataFrame) : DataFrame :=
  if has df "puissance_nominale" then
    let df :=
      assign "puissance_kw"
        (λ r, CNum (clip_lower (of_Z 0)
                      (to_numeric (get r "puissance_nominale")))) df in
    assign "categorie_puissance"
      (λ r, CStr (_bin (num (get r "puissance_kw")))) df
  else df.

(** 4) [is_dc].  With a connector column this is the table computed when
    [.str] exists on it ([holds_text]); on a connector column of numbers or
    of missing values only, the source raises [AttributeError] here. *)
Definition derive_is_dc (df : DataFrame) : DataFrame :=
  if has df "connecteur" then
    assign "is_dc"
      (λ r, CBool (str_contains ["DC"; "CCS"; "Combo"; "CHAdeMO"] true
                     (get r "connecteur"))) df
  else if has df "puissance_kw" then
    assign "is_dc"
      (λ r, CBool (fge (num (get r "puissance_kw")) (of_Z 24))) df
  else df.

(** 5) [access_24_7]. *)
Definition derive_access_24_7 (df : DataFrame) : DataFrame :=
  if has df "horaires" then
    assign "access_24_7"
      (λ r, let s := lower (str str_float (get r "horaires")) in
            CBool (contains "24/7" s || contains "24h" s ||
                   contains "24 h" s || contains "24 heures" s)) df
  else
    assign "access_24_7" (λ _, CBool false) df.

(** 6) [est_publique]. *)
Definition derive_est_publique (df : DataFrame) : DataFrame :=
  let a r := if has df "accessibilite"
             then str str_float (get r "accessibilite") else "" in
  let c r := if has df "conditions_acces"
             then str str_float (get r "conditions_acces") else "" in
  assign "est_publique"
    (λ r, let txt := lower (a r ++ " " ++ c r) in
          CBool (contains_any
                   ["public"; "libre accès"; "libre acces"] txt)) df.

(** 7) [statut_normalise]: [np.select] keeps the first true condition. *)
Definition derive_statut (df : DataFrame) : DataFrame :=
  let statut_src :=
    if has df "etat_pdc" then Some "etat_pdc"
    else if has df "statut_pdc" then Some "statut_pdc" else None in
  match statut_src with
  | Some src =>
      assign "statut_normalise"
        (λ r, let s := lower (str str_float (get r src)) in
              CStr (if contains_any ["en service"; "disponible";
                                     "opération"; "operation"] s
                    then "en_service"
                    else if contains_any ["hors service"; "panne";
                                          "indisponible"] s
                    then "hors_service"
                    else if contains_any ["maintenance"] s
                    then "maintenance"
                    else "inconnu")) df
  | None => df
  end.

Definition drop_if_present (c : string) (df : DataFrame) : DataFrame :=
  if has df c then drop c df else df.

Definition front_cols : list string :=
  [ "id_station"; "id_pdc"; "nom_station";
    "adresse_station"; "code_postal"; "nom_commune";
    "code_departement"; "nom_departement"; "code_region"; "nom_region";
    "latitude"; "longitude";
    "puissance_kw"; "categorie_puissance"; "is_dc";
    "access_24_7"; "est_publique"; "statut_normalise";
    "operateur"; "enseigne"; "reseau";
    "date_maj"; "date_mise_en_service" ].

(** 9) [df = df[front + [c for c in df.columns if c not in front]]]. *)
Definition reorder (df : DataFrame) : DataFrame :=
  let front := List.filter (has df) front_cols in
  select
    (front ++
     List.filter (λ c, negb (bool_decide (c ∈ front))) (columns df)) df.

Definition clean_irve (df_raw : DataFrame) : DataFrame :=
  let df := select_present df_raw in
  let df := consolidate_coordinates df in
  let df := derive_power df in
  let df := derive_is_dc df in
  let df := derive_access_24_7 df in
  let df := derive_est_publique df in
  let df := derive_statut df in
  let df := drop_if_present "code_insee_commune" df in
  let df := reorder df in
  let df := drop_if_present "consolidated_latitude" df in
  drop_if_present "consolidated_longitude" df.

End Cleaning.

End Cleaning.

(** ** [sections/data_processing.py]: the data path of [render]

    The page is one function; its steps that touch the table or the disk
    are given here one by one, in the order of the source.  A step that can
    raise returns an [option], [None] being the exception.  Text and charts
    sent to the page are left out, except where a step computes a number it
    shows or can raise while drawing. *)

Module DataProcessing.

Import Cleaning.

Section Render.

Variable parse_float : string → float64.
Variable str_float : Q → string.

(** Section 2 and 3 of the page:
<<
  df_raw["code_postal"] = df_raw["adresse_station"].apply(extract_code_postal)
  df_raw = add_departement_from_cp_simple(df_raw, cp_col="code_postal")
  df_clean = clean_irve(df_raw)
>>
    [KeyError] when the table has no [adresse_station].  The result is
    the one of the source when [clean_irve] returns, see [derive_is_dc]. *)
Definition prepare (df_raw : DataFrame) : option DataFrame :=
  if has df_raw "adresse_station" then
    let df_raw :=
      assign "code_postal"
        (λ r, of_option (Geo.extract_code_postal str_float
                           (get r "adresse_station"))) df_raw in
    let df_raw :=
      add_departement_from_cp_simple str_float df_raw "code_postal" in
    Some (clean_irve parse_float str_float df_raw)
  else None.

(** What section 5 of the page shows and returns. *)
Record postal_step : Type := mkPostalStep {
  nb_suppr : nat;
  after_postal : DataFrame
}.

(** Section 5 of the page:
<<
      nb_avant = len(df_clean)
      df_clean = df_clean.dropna(subset=["code_postal"])
      nb_apres = len(df_clean)
      nb_suppr = nb_avant - nb_apres
      st.write(f"Rows removed: {nb_suppr:,} "
               f"({(nb_suppr / nb_avant) * 100:.1f}% of dataset)")
>>
    [KeyError] when the table has no [code_postal], [ZeroDivisionError]
    when it has no row. *)
Definition drop_without_postal_code (df_clean : DataFrame)
    : option postal_step :=
  if has df_clean "code_postal" then
    let nb_avant := length (rows df_clean) in
    let df_clean := dropna "code_postal" df_clean in
    let nb_apres := length (rows df_clean) in
    let nb_suppr := nb_avant - nb_apres in
    if (nb_avant =? 0)%nat then None
    else Some {| nb_suppr := nb_suppr; after_postal := df_clean |}
  else None.

(** Every cell of column [c] can be compared with a number. *)
Definition all_comparable (c : string) (df : DataFrame) : bool :=
  forallb (λ r, bool_decide (is_Some (comparable (get r c)))) (rows df).

(** What the power step shows and returns. *)
Record power_step : Type := mkPowerStep {
  nb_outliers : option nat;
  after_power : DataFrame
}.

(** a) Power analysis:
<<
  if "puissance_kw" in df_clean.columns:
      nb_outliers = (df_clean["puissance_kw"] > 400).sum()
      df_clean = df_clean[df_clean["puissance_kw"] <= 400]
>> *)
Definition remove_power_outliers (df_clean : DataFrame)
    : option power_step :=
  if has df_clean "puissance_kw" then
    if all_comparable "puissance_kw" df_clean then
      Some {|
        nb_outliers :=
          Some (length (List.filter
                  (λ r, fgt (num (get r "puissance_kw")) (of_Z 400))
                  (rows df_clean)));
        after_power :=
          keep (λ r, fle (num (get r "puissance_kw")) (of_Z 400))
               df_clean |}
    else None
  else Some {| nb_outliers := None; after_power := df_clean |}.

Definition mask_geo (r : gmap string cell) : bool :=
  between (of_Z (-22)) (of_Z 52) (num (get r "latitude")) &&
  between (of_Z (-63)) (of_Z 55) (num (get r "longitude")).

(** Rows of [df_clean[["latitude", "longitude"]].dropna()]. *)
Definition plottable (df : DataFrame) : list (gmap string cell) :=
  List.filter
    (λ r, negb (isna (get r "latitude")) &&
          negb (isna (get r "longitude"))) (rows df).

Record geo_step : Type := mkGeoStep {
  nb_geo_out : option nat;
  after_geo : DataFrame
}.

(** b) Geographic coordinates check:
<<
  if {"latitude", "longitude"}.issubset(df_clean.columns):
      mask_geo = (df_clean["latitude"].between(-22, 52, inclusive="both") &
                  df_clean["longitude"].between(-63, 55, inclusive="both"))
      nb_geo_out = (~mask_geo).sum()
      st.map(df_clean[["latitude", "longitude"]].dropna()
                 .sample(min(5000, len(df_clean))), ...)
      df_clean = df_clean[mask_geo]
>>
    [sample] raises [ValueError] when asked for more rows than
    [dropna] left. *)
Definition remove_geo_outliers (df_clean : DataFrame) : option geo_step :=
  if has df_clean "latitude" && has df_clean "longitude" then
    if all_comparable "latitude" df_clean &&
       all_comparable "longitude" df_clean then
      if (Nat.min 5000 (length (rows df_clean))
            <=? length (plottable df_clean))%nat then
        Some {|
          nb_geo_out :=
            Some (length (List.filter (λ r, negb (mask_geo r))
                            (rows df_clean)));
          after_geo := keep mask_geo df_clean |}
      else None
    else None
  else Some {| nb_geo_out := None; after_geo := df_clean |}.

End Render.

(** *** Section 8 of the page: saving

    The two writers and [os.path.getsize] act on the disk; what each call
    does is given by a [disk]: [inl e] is an exception of text [e], [inr]
    a normal return.  Statements run in a writer-and-exception monad: the
    log is what reached the page or the disk, in order. *)

Inductive event : Type :=
| to_csv_called
| to_parquet_called
| st_success (msg : string)
| st_info_csv_size (bytes : N)
| st_error (msg : string)
| st_write (msg : string).

Record disk : Type := mkDisk {
  to_csv : string + unit;
  to_parquet : string + unit;
  getsize_csv : string + N;
  getsize_parquet : string + N
}.

Definition M (A : Type) : Type := list event * (string + A).

Definition ret {A} (a : A) : M A := ([], inr a).

Definition bind {A B} (m : M A) (k : A → M B) : M B :=
  match m with
  | (log, inl e) => (log, inl e)
  | (log, inr a) => let '(log', r) := k a in ((log ++ log')%list, r)
  end.

Notation "'let!' x ':=' m 'in' k" := (bind m (λ x, k))
  (at level 10, x name, k at level 200).
Notation "m >> k" := (bind m (λ _, k))
  (at level 90, right associativity).

Definition emit (e : event) : M unit := ([e], inr tt).

(** A call on the disk: logged, then its outcome. *)
Definition call {A} (e : event) (outcome : string + A) : M A :=
  ([e], outcome).

Definition lift {A} (outcome : string + A) : M A := ([], outcome).

(** [try: body except Exception as e: handler(e)]. *)
Definition try_except {A} (body : M A) (handler : string → M A) : M A :=
  match body with
  | (log, inl e) => let '(log', r) := handler e in ((log ++ log')%list, r)
  | (log, inr a) => (log, inr a)
  end.

(**
<<
    try:
        df_clean.to_csv(csv_path, index=False, encoding="utf-8")
        st.success("Data saved in CSV format")
        df_clean.to_parquet(parquet_path, index=False)
        csv_size = os.path.getsize(csv_path) / 1e6
        parquet_size = os.path.getsize(parquet_path) / 1e6
        st.info(f"CSV file size: {csv_size:.1f} MB")
    except Exception as e:
        st.error(f"Save error: {e}")
    st.write("The dataset is now ready ...")
>> *)
Definition ready_message : string :=
  "The dataset is now ready to be used in the Overview and Deep Dive sections.".

Definition save (d : disk) : M unit :=
  try_except
    (call to_csv_called (to_csv d) >>
     emit (st_success "Data saved in CSV format") >>
     call to_parquet_called (to_parquet d) >>
     let! csv_size := lift (getsize_csv d) in
     let! parquet_size := lift (getsize_parquet d) in
     emit (st_info_csv_size csv_size))
    (λ e, emit (st_error ("Save error: " ++ e))) >>
  emit (st_write ready_message).

End DataProcessing.

(** ** An instance of the two library functions

    Plain decimal notation, enough to run the model on tables: an optional
    sign, digits, an optional fraction.  The theorems below hold for every
    instance. *)

Module Sample.

Definition digit_value (c : ascii) : Z := Z.of_nat (nat_of_ascii c) - 48.

(** Digits of [s] read on top of [acc]; [None] on another character. *)
Fixpoint read_digits (acc : Z) (s : string) : option Z :=
  match s with
  | EmptyString => Some acc
  | String c s' =>
      if is_digit c then read_digits (10 * acc + digit_value c)%Z s'
      else None
  end.

(** The fraction [0.s], [scale] being the weight of the next digit. *)
Fixpoint read_fraction (scale : positive) (s : string) : option Q :=
  match s with
  | EmptyString => Some 0%Q
  | String c s' =>
      if is_digit c then
        match read_fraction (scale * 10) s' with
        | Some q => Some (Qred ((digit_value c # scale * 10) + q))
        | None => None
        end
      else None
  end.

(** Splits [s] at its first [.]: integer part and, if any, fraction. *)
Fixpoint split_point (s : string) : string * option string :=
  match s with
  | EmptyString => (EmptyString, None)
  | String c s' =>
      if Ascii.eqb c "."%char then (EmptyString, Some s')
      else let '(i, f) := split_point s' in (String c i, f)
  end.

Definition parse_unsigned (s : string) : option Q :=
  let '(i, f) := split_point s in
  match i with
  | EmptyString => None
  | _ =>
      match read_digits 0 i, f with
      | Some n, None => Some (inject_Z n)
      | Some n, Some f' =>
          match read_fraction 1 f' with
          | Some q => Some (Qred (inject_Z n + q))
          | None => None
          end
      | None, _ => None
      end
  end.

Definition parse_float (s : string) : float64 :=
  match s with
  | String "-"%char s' =>
      match parse_unsigned s' with
      | Some q => Fin (Qred (- q))
      | None => NaN
      end
  | _ =>
      match parse_unsigned s with
      | Some q => Fin q
      | None => NaN
      end
  end.

Definition digit_char (d : Z) : ascii := ascii_of_nat (Z.to_nat d + 48).

(** Decimal digits of the natural number [n], most significant first. *)
Fixpoint nat_digits (fuel : nat) (n : Z) (acc : string) : string :=
  match fuel with
  | O => acc
  | S fuel' =>
      let acc' := String (digit_char (n mod 10)) acc in
      if (n <? 10)%Z then acc' else nat_digits fuel' (n / 10) acc'
  end.

(** Digits of [r / d] after the point, [0 <= r < d]. *)
Fixpoint fraction_digits (fuel : nat) (r d : Z) : string :=
  match fuel with
  | O => EmptyString
  | S fuel' =>
      if (r =? 0)%Z then EmptyString
      else String (digit_char (10 * r / d))
                  (fraction_digits fuel' (10 * r mod d) d)
  end.

Definition str_float (q : Q) : string :=
  let n := Z.abs (Qnum q) in
  let d := Z.pos (Qden q) in
  let r := (n mod d)%Z in
  (if (Qnum q <? 0)%Z then "-" else "") ++
  nat_digits 400 (n / d) EmptyString ++ "." ++
  (if (r =? 0)%Z then "0" else fraction_digits 17 r d).

End Sample.

(** ** [utils/prep.py]: the power classes of the summary tables *)

Module Prep.

Definition categorize_power (kw : float64) : string :=
  if isnan kw then "inconnue"
  else if flt kw (of_Z 7) then "<7 kW"
  else if flt kw (of_Z 22) then "AC 7–22"
  else if flt kw (of_Z 50) then "DC 24–49"
  else if flt kw (of_Z 150) then "DC 50–149"
  else if flt kw (of_Z 300) then "HPC 150–299"
  else "HPC ≥300".

End Prep.

(** ** More text: [str.strip], [str.upper], [str.isdigit], [str.zfill] *)

Module Text2.

(** [str.isspace] on one ASCII character: tab to carriage return, the four
    separators 28 to 31, and the space. *)
Definition is_space (c : ascii) : bool :=
  let n := nat_of_ascii c in
  ((9 <=? n)%nat && (n <=? 13)%nat) ||
  ((28 <=? n)%nat && (n <=? 32)%nat).

Fixpoint lstrip (s : string) : string :=
  match s with
  | EmptyString => EmptyString
  | String c s' => if is_space c then lstrip s' else s
  end.

Fixpoint rstrip (s : string) : string :=
  match s with
  | EmptyString => EmptyString
  | String c s' =>
      match rstrip s' with
      | EmptyString => if is_space c then EmptyString
                       else String c EmptyString
      | t => String c t
      end
  end.

(** [str.strip()]. *)
Definition strip (s : string) : string := rstrip (lstrip s).

Definition upper_char (c : ascii) : ascii :=
  if is_lower c then ascii_of_nat (nat_of_ascii c - 32) else c.

(** [str.upper] on the ASCII small letters; a small letter outside ASCII,
    which Python folds too, is left as it is. *)
Fixpoint upper (s : string) : string :=
  match s with
  | EmptyString => EmptyString
  | String c s' => String (upper_char c) (upper s')
  end.

Fixpoint all_digits (s : string) : bool :=
  match s with
  | EmptyString => true
  | String c s' => is_digit c && all_digits s'
  end.

(** [str.isdigit]: at least one character, and digits only. *)
Definition isdigit (s : string) : bool :=
  match s with
  | EmptyString => false
  | _ => all_digits s
  end.

Fixpoint zeros (n : nat) : string :=
  match n with
  | O => EmptyString
  | S n' => String "0"%char (zeros n')
  end.

(** [str.zfill(width)]: zeros on the left, after a leading sign. *)
Definition zfill (width : nat) (s : string) : string :=
  let pad := zeros (width - String.length s) in
  match s with
  | String c s' =>
      if Ascii.eqb c "+"%char || Ascii.eqb c "-"%char
      then String c (pad ++ s')
      else pad ++ s
  | EmptyString => pad
  end.

End Text2.
Export Text2.

(** ** [sections/overview.py] and [sections/deep_dives.py] *)

Module Pages.

Section Pages.

Variable str_float : Q → string.

(** The boolean columns of [load_data], one element (the two pages have the
    same line):
<<
      df[c] = df[c].astype(str).str.strip().str.lower()
                   .isin(["1", "true", "vrai", "oui", "yes"])
>> *)
Definition to_bool (c : cell) : bool :=
  existsb (String.eqb (lower (strip (str str_float c))))
          ["1"; "true"; "vrai"; "oui"; "yes"].

(** [norm_code] of the choropleth map of [deep_dives.py]:
<<
      s = str(x).strip().upper()
      if s in {"2A", "2B"}:
          return s
      return s.zfill(2) if s.isdigit() and len(s) <= 2 else s
>> *)
Definition norm_code (x : cell) : string :=
  let s := upper (strip (str str_float x)) in
  if String.eqb s "2A" || String.eqb s "2B" then s
  else if isdigit s && (String.length s <=? 2)%nat then zfill 2 s
  else s.

End Pages.

End Pages.

(** * Specifications

    Definitions the statements below are written with: the positions of a
    text where a postal code stands, the resolver as a search over the two
    lists, and finite maxima. *)

Module Spec.





(** Columns equal to [cand] once lowered, in column order. *)
Definition exact_columns (cols : list string) (cand : string)
    : list string :=
  List.filter (λ c, String.eqb (lower c) cand) cols.



(** [max(0, p)] on numbers: the infinities are ordinary bounds. *)
Definition max0 (p : float64) : float64 :=
  match p with
  | NaN => NaN
  | NInf => Fin 0
  | Fin q => Fin (Qmax 0 q)
  | PInf => PInf
  end.

(** The first number of a list that is not missing, if any. *)
Fixpoint first_number (xs : list float64) : float64 :=
  match xs with
  | [] => NaN
  | x :: rest => if isnan x then first_number rest else x
  end.

(** Column [c] of a row parsed as a number; missing when the table has no
    such column. *)
Definition parsed (parse_float : string → float64) (df : DataFrame)
    (r : gmap string cell) (c : string) : float64 :=
  if has df c then Cleaning.to_numeric parse_float (get r c) else NaN.

(** Equality of numbers up to the representation of a rational. *)
Definition same_number (x y : float64) : Prop :=
  match x, y with
  | Fin a, Fin b => (a == b)%Q
  | _, _ => x = y
  end.

(** A row lies in the bounding box of the page: both coordinates finite,
    latitude in [-22, 52], longitude in [-63, 55]. *)
Definition in_box (r : gmap string cell) : Prop :=
  ∃ lat lon : Q,
    num (get r "latitude") = Fin lat ∧ num (get r "longitude") = Fin lon ∧
    (-22 <= lat)%Q ∧ (lat <= 52)%Q ∧ (-63 <= lon)%Q ∧ (lon <= 55)%Q.

(** Column [c] is carried unchanged from [df] to [df']: it exists in both
    or in neither, the tables have the same number of rows, and when it
    exists the rows hold the same cell, one by one. *)
Definition keeps (c : string) (df df' : DataFrame) : Prop :=
  has df' c = has df c ∧
  length (rows df') = length (rows df) ∧
  (has df c = true →
   Forall2 (λ r r' : gmap string cell, r' !! c = r !! c)
           (rows df) (rows df')).

End Spec.

(** * Tables and disks used as examples *)

Module Examples.

Import DataProcessing.

(** The scenario row of the specification. *)
Definition scenario : DataFrame :=
  {| columns := ["adresse_station"; "connecteur"; "puissance_nominale"];
     rows := [ {[ "adresse_station" := CStr "12 Rue de Paris, 75010 Paris";
                  "connecteur" := CStr "CCS";
                  "puissance_nominale" := CNum (of_Z 150) ]} ] |}.

(** The scenario row once cleaned, and once prepared by the page. *)
Definition scenario_cleaned : gmap string cell :=
  {[ "adresse_station" := CStr "12 Rue de Paris, 75010 Paris";
     "puissance_kw" := CNum (of_Z 150);
     "categorie_puissance" := CStr "DC_ultra";
     "is_dc" := CBool true;
     "access_24_7" := CBool false;
     "est_publique" := CBool false;
     "puissance_nominale" := CNum (of_Z 150);
     "connecteur" := CStr "CCS" ]}.

Definition scenario_prepared : DataFrame :=
  {| columns := ["adresse_station"; "code_postal"; "puissance_kw";
                 "categorie_puissance"; "is_dc"; "access_24_7";
                 "est_publique"; "puissance_nominale"; "connecteur";
                 "departement"];
     rows := [ <[ "code_postal" := CStr "75010" ]>
                 (<[ "departement" := CStr "75" ]> scenario_cleaned) ] |}.

Definition point (lat lon : float64) : gmap string cell :=
  {[ "latitude" := CNum lat; "longitude" := CNum lon ]}.

Definition paris : gmap string cell := point (Fin 48.85) (Fin 2.35).
Definition north_pole : gmap string cell := point (Fin 85) (Fin 2.35).
Definition no_latitude : gmap string cell := point NaN (Fin 2.35).


Definition geo_small : DataFrame :=
  {| columns := ["latitude"; "longitude"];
     rows := [paris; north_pole] |}.

(** A cleaned table with one rated point and one of unknown power. *)
Definition power_table : DataFrame :=
  {| columns := ["puissance_kw"];
     rows := [ {[ "puissance_kw" := CNum (of_Z 50) ]};
               {[ "puissance_kw" := CNum NaN ]};
               {[ "puissance_kw" := CNum (of_Z 450) ]} ] |}.

(** A raw table whose only point has no rated power. *)
Definition unknown_power_raw : DataFrame :=
  {| columns := ["adresse_station"; "puissance_nominale"];
     rows := [ {[ "adresse_station" := CStr "1 Rue Cler, 75007 Paris";
                  "puissance_nominale" := CNum NaN ]} ] |}.


Definition power_only : DataFrame :=
  {| columns := ["puissance_nominale"];
     rows := [ {[ "puissance_nominale" := CNum (of_Z (-5)) ]};
               {[ "puissance_nominale" := CStr "n/a" ]};
               {[ "puissance_nominale" := CStr "22" ]} ] |}.

(** A latitude column holding text, and no consolidated column. *)
Definition latitude_text : DataFrame :=
  {| columns := ["latitude"];
     rows := [ {[ "latitude" := CStr "abc" ]} ] |}.

(** Primary and both fallback columns for the latitude. *)
Definition three_latitudes : DataFrame :=
  {| columns := ["latitude"; "consolidated_latitude";
                 "consolidated_lagitude"; "consolidated_longitude"];
     rows := [ {[ "latitude" := CStr "unknown";
                  "consolidated_latitude" := CNum NaN;
                  "consolidated_lagitude" := CStr "48.85";
                  "consolidated_longitude" := CNum (Fin 2.35) ]} ] |}.



(** Two columns equal up to case. *)
Definition same_up_to_case : DataFrame :=
  {| columns := ["Latitude"; "LATITUDE"]; rows := [] |}.

Definition disk_ok : disk :=
  {| to_csv := inr tt; to_parquet := inr tt;
     getsize_csv := inr 1200%N; getsize_parquet := inr 300%N |}.

Definition csv_fails : disk :=
  {| to_csv := inl "Permission denied"; to_parquet := inr tt;
     getsize_csv := inr 1200%N; getsize_parquet := inr 300%N |}.

Definition parquet_fails : disk :=
  {| to_csv := inr tt; to_parquet := inl "Permission denied";
     getsize_csv := inr 1200%N; getsize_parquet := inr 300%N |}.

End Examples.

(** * More specifications *)

Module Spec2.

(** The rank of a power category of [clean_irve], slowest first. *)
Definition tier_of_bin (label : string) : option nat :=
  if String.eqb label "AC_lente" then Some 0%nat
  else if String.eqb label "AC_standard" then Some 1%nat
  else if String.eqb label "DC_moyenne" then Some 2%nat
  else if String.eqb label "DC_rapide" then Some 3%nat
  else if String.eqb label "DC_ultra" then Some 4%nat
  else None.

(** The rank of a power class of the summary tables, the two HPC classes
    being one rank. *)
Definition tier_of_class (label : string) : option nat :=
  if String.eqb label "<7 kW" then Some 0%nat
  else if String.eqb label "AC 7–22" then Some 1%nat
  else if String.eqb label "DC 24–49" then Some 2%nat
  else if String.eqb label "DC 50–149" then Some 3%nat
  else if String.eqb label "HPC 150–299" then Some 4%nat
  else if String.eqb label "HPC ≥300" then Some 4%nat
  else None.

(** Only white space. *)
Fixpoint all_space (s : string) : bool :=
  match s with
  | EmptyString => true
  | String c s' => is_space c && all_space s'
  end.

(** No white space at the head. *)
Definition starts_clean (s : string) : bool :=
  match s with
  | EmptyString => true
  | String c _ => negb (is_space c)
  end.

(** The four fragments that mean open around the clock. *)
Definition around_the_clock (s : string) : bool :=
  contains "24/7" s || contains "24h" s ||
  contains "24 h" s || contains "24 heures" s.

(** ASCII characters only: a text on which the case folding, the white
    space, the digits and the word characters of Python are the ASCII
    ones. *)
Fixpoint all_ascii (s : string) : bool :=
  match s with
  | EmptyString => true
  | String c s' => (nat_of_ascii c <? 128)%nat && all_ascii s'
  end.

(** Every character is ASCII or one of the small letters of Latin-1 from
    U+00DF to U+00FF, in UTF-8 the byte 195 then a byte from 159 to 191.
    On such a text [str.lower] changes the ASCII capitals only, and a
    search that ignores case takes no other character for an ASCII
    letter. *)
Fixpoint ascii_or_small_latin (s : string) : bool :=
  match s with
  | EmptyString => true
  | String c s' =>
      if (nat_of_ascii c <? 128)%nat then ascii_or_small_latin s'
      else if (nat_of_ascii c =? 195)%nat then
        match s' with
        | String d s'' =>
            (159 <=? nat_of_ascii d)%nat && (nat_of_ascii d <=? 191)%nat &&
            ascii_or_small_latin s''
        | EmptyString => false
        end
      else false
  end.

(** Letters, digits and underscores only: a text that is a regular
    expression for itself. *)
Fixpoint all_word (s : string) : bool :=
  match s with
  | EmptyString => true
  | String c s' => is_word c && all_word s'
  end.

Fixpoint no_newline (s : string) : bool :=
  match s with
  | EmptyString => true
  | String c s' => negb (Ascii.eqb c "010"%char) && no_newline s'
  end.

(** The columns [clean_irve] computes, and the ones it removes. *)
Definition derived_cols : list string :=
  [ "puissance_kw"; "categorie_puissance"; "is_dc";
    "access_24_7"; "est_publique"; "statut_normalise" ].

Definition dropped_cols : list string :=
  [ "code_insee_commune"; "consolidated_latitude";
    "consolidated_longitude" ].

(** The page tells the user once how the save went: the size of the CSV
    file, or the error. *)
Definition is_report (ev : DataProcessing.event) : bool :=
  match ev with
  | DataProcessing.st_info_csv_size _ | DataProcessing.st_error _ => true
  | _ => false
  end.

End Spec2.

(** * More tables used as examples *)

Module Examples2.

(** Two points, one without latitude: too few for the map of the page. *)
Definition geo_gap : DataFrame :=
  {| columns := ["latitude"; "longitude"];
     rows := [Examples.paris; Examples.no_latitude] |}.

(** A raw point whose status says unavailable, and its table. *)
Definition status_row : gmap string cell :=
  {[ "adresse_station" := CStr "1 place de la Gare 69002 Lyon";
     "horaires" := CStr "24 Heures sur 24";
     "accessibilite" := CStr "Accès PUBLIC";
     "etat_pdc" := CStr "Indisponible";
     "statut_pdc" := CStr "panne";
     "consolidated_lagitude" := CStr "45.75" ]}.

Definition status_table : DataFrame :=
  {| columns := ["adresse_station"; "horaires"; "accessibilite";
                 "etat_pdc"; "statut_pdc"; "consolidated_lagitude"];
     rows := [status_row] |}.

(** What the power rule makes of [Examples.power_table]. *)
Definition power_kept : DataProcessing.power_step :=
  {| DataProcessing.nb_outliers := Some 1%nat;
     DataProcessing.after_power :=
       {| columns := ["puissance_kw"];
          rows := [ {[ "puissance_kw" := CNum (of_Z 50) ]} ] |} |}.

(** What the geographic rule makes of [Examples.geo_small]. *)
Definition geo_kept : DataProcessing.geo_step :=
  {| DataProcessing.nb_geo_out := Some 1%nat;
     DataProcessing.after_geo :=
       {| columns := ["latitude"; "longitude"];
          rows := [Examples.paris] |} |}.

(** A latitude read as text, as a column with one unreadable cell is. *)
Definition text_coordinates : DataFrame :=
  {| columns := ["latitude"; "longitude"];
     rows := [ {[ "latitude" := CStr "abc";
                  "longitude" := CNum (Fin 2.35) ]} ] |}.

(** The postal, power and geographic steps on the prepared scenario: no
    row is removed. *)
Definition scenario_postal : DataProcessing.postal_step :=
  {| DataProcessing.nb_suppr := 0;
     DataProcessing.after_postal := Examples.scenario_prepared |}.

Definition scenario_power : DataProcessing.power_step :=
  {| DataProcessing.nb_outliers := Some 0%nat;
     DataProcessing.after_power := Examples.scenario_prepared |}.

Definition scenario_geo : DataProcessing.geo_step :=
  {| DataProcessing.nb_geo_out := None;
     DataProcessing.after_geo := Examples.scenario_prepared |}.

End Examples2.

(** * Numbers: comparisons, [clip] and the power bins *)

Section NumberFacts.

Import Cleaning.

Lemma fle_Fin_spec (a b : Q) :
  BoolSpec (a <= b)%Q (b < a)%Q (fle (Fin a) (Fin b)).
Proof.
  unfold fle; simpl.
  destruct (Qcompare_spec a b) as [E | L | G]; constructor; lra.
Qed.

Lemma flt_Fin_spec (a b : Q) :
  BoolSpec (a < b)%Q (b <= a)%Q (flt (Fin a) (Fin b)).
Proof.
  unfold flt; simpl.
  destruct (Qcompare_spec a b) as [E | L | G]; constructor; lra.
Qed.

Lemma fle_Fin (a b : Q) : fle (Fin a) (Fin b) = true ↔ (a <= b)%Q.
Proof. destruct (fle_Fin_spec a b); split; (done || lra). Qed.

Lemma flt_Fin (a b : Q) : flt (Fin a) (Fin b) = true ↔ (a < b)%Q.
Proof. destruct (flt_Fin_spec a b); split; (done || lra). Qed.

(** A comparison with [NaN] on either side is false. *)
Lemma fle_NaN_l (y : float64) : fle NaN y = false.
Proof. reflexivity. Qed.

Lemma fle_NaN_r (x : float64) : fle x NaN = false.
Proof. by destruct x. Qed.

(** [x <= y] and [x > y] exclude each other, and one of them holds unless
    a side is missing. *)
Lemma fle_fgt_exclusive (x y : float64) :
  fle x y = true → fgt x y = false.
Proof.
  destruct x as [| |a|], y as [| |b|]; try done.
  unfold fgt. destruct (fle_Fin_spec a b), (flt_Fin_spec b a); (done || lra).
Qed.

Lemma fgt_or_fle (x y : float64) :
  isnan x = false → isnan y = false → fle x y = true ∨ fgt x y = true.
Proof.
  destruct x as [| |a|], y as [| |b|]; try done; try (by left); try (by right).
  intros _ _. unfold fgt.
  destruct (fle_Fin_spec a b), (flt_Fin_spec b a); auto; lra.
Qed.

(** [clip(lower=0)] is [max(0, .)], and keeps a missing value missing. *)
Lemma clip_lower_0_max (p : float64) :
  Spec.same_number (clip_lower (of_Z 0) p) (Spec.max0 p).
Proof.
  destruct p as [| |q|]; try done.
  unfold clip_lower, fge, of_Z, Spec.max0, Qmax, GenericMinMax.gmax; simpl.
  change (inject_Z 0) with 0%Q.
  destruct (fle_Fin_spec 0 q) as [H | H];
    destruct (Qcompare_spec 0 q) as [E | L | G]; simpl; lra.
Qed.

Lemma clip_lower_0_not_negative (p : float64) :
  flt (clip_lower (of_Z 0) p) (of_Z 0) = false.
Proof.
  destruct p as [| |q|]; try done.
  unfold clip_lower, fge, of_Z; simpl. change (inject_Z 0) with 0%Q.
  destruct (fle_Fin_spec 0 q) as [H | H]; simpl.
  - destruct (flt_Fin_spec q 0); (done || lra).
  - done.
Qed.

Lemma bin_Fin (q : Q) :
  _bin (Fin q) =
    if fle (Fin q) (Fin 7) then "AC_lente"
    else if fle (Fin q) (Fin 22) then "AC_standard"
    else if fle (Fin q) (Fin 49) then "DC_moyenne"
    else if fle (Fin q) (Fin 149) then "DC_rapide"
    else "DC_ultra".
Proof. reflexivity. Qed.

(** The classifier [_bin]: each label is returned on exactly one bin. *)
Lemma bin_bins (x : float64) :
  (_bin x = "inconnu" ↔ isnan x = true) ∧
  (_bin x = "AC_lente" ↔ fle x (of_Z 7) = true) ∧
  (_bin x = "AC_standard" ↔
     fgt x (of_Z 7) = true ∧ fle x (of_Z 22) = true) ∧
  (_bin x = "DC_moyenne" ↔
     fgt x (of_Z 22) = true ∧ fle x (of_Z 49) = true) ∧
  (_bin x = "DC_rapide" ↔
     fgt x (of_Z 49) = true ∧ fle x (of_Z 149) = true) ∧
  (_bin x = "DC_ultra" ↔ fgt x (of_Z 149) = true).
Proof.
  destruct x as [| |q|];
    try (vm_compute; repeat split; intros; destruct_and?; congruence).
  rewrite bin_Fin. unfold fgt, of_Z.
  change (inject_Z 7) with 7%Q; change (inject_Z 22) with 22%Q;
    change (inject_Z 49) with 49%Q; change (inject_Z 149) with 149%Q.
  destruct (fle_Fin_spec q 7), (fle_Fin_spec q 22), (fle_Fin_spec q 49),
    (fle_Fin_spec q 149), (flt_Fin_spec 7 q), (flt_Fin_spec 22 q),
    (flt_Fin_spec 49 q), (flt_Fin_spec 149 q);
    try lra; simpl; repeat split; intros; destruct_and?; congruence.
Qed.

End NumberFacts.

(** * Text: the postal-code search *)

Section PostalCode.

Import Spec.












End PostalCode.




(** * The column resolver *)

Section Resolver.

Import Io Spec.

Variable re_fullmatch : string → string → bool.

Lemma lowered_snoc (cols : list string) (c : string) :
  lowered (cols ++ [c])%list = <[lower c := c]> (lowered cols).
Proof. unfold lowered. by rewrite foldl_app. Qed.

Lemma exact_columns_snoc (cols : list string) (c cand : string) :
  exact_columns (cols ++ [c])%list cand =
    (exact_columns cols cand ++
     (if String.eqb (lower c) cand then [c] else []))%list.
Proof. unfold exact_columns. by rewrite List.filter_app. Qed.

(** The dictionary keeps, under a key, the last column that lowers to it. *)
Lemma lowered_lookup (cols : list string) (k : string) :
  lowered cols !! k = last (exact_columns cols k).
Proof.
  induction cols as [| c cols IH] using rev_ind; [done |].
  rewrite lowered_snoc, exact_columns_snoc.
  destruct (String.eqb_spec (lower c) k) as [-> | Hne].
  - by rewrite lookup_insert_eq, last_snoc.
  - by rewrite lookup_insert_ne, app_nil_r.
Qed.



Lemma first_loose_find (cols candidates : list string) :
  first_loose re_fullmatch cols candidates =
    List.find (loose re_fullmatch candidates) cols.
Proof.
  induction cols as [| c cols IH]; [done |].
  simpl. by rewrite IH.
Qed.


End Resolver.


(** Among columns equal up to case the last one is returned. *)
Example first_col_last_of_equal_columns :
  Io._first_col Re.fullmatch Examples.same_up_to_case ["latitude"]
    = Some "LATITUDE".
Proof. vm_compute; reflexivity. Qed.

(** * Saving the cleaned table *)

Section Saving.

Import DataProcessing Examples.

(** The whole block, outcome by outcome of the four calls. *)
Lemma save_cases (d : disk) :
  save d =
    match to_csv d with
    | inl e =>
        ([to_csv_called; st_error ("Save error: " ++ e);
          st_write ready_message], inr tt)
    | inr _ =>
        match to_parquet d with
        | inl e =>
            ([to_csv_called; st_success "Data saved in CSV format";
              to_parquet_called; st_error ("Save error: " ++ e);
              st_write ready_message], inr tt)
        | inr _ =>
            match getsize_csv d with
            | inl e =>
                ([to_csv_called; st_success "Data saved in CSV format";
                  to_parquet_called; st_error ("Save error: " ++ e);
                  st_write ready_message], inr tt)
            | inr csv_size =>
                match getsize_parquet d with
                | inl e =>
                    ([to_csv_called;
                      st_success "Data saved in CSV format";
                      to_parquet_called;
                      st_error ("Save error: " ++ e);
                      st_write ready_message], inr tt)
                | inr _ =>
                    ([to_csv_called;
                      st_success "Data saved in CSV format";
                      to_parquet_called; st_info_csv_size csv_size;
                      st_write ready_message], inr tt)
                end
            end
        end
    end.
Proof.
  unfold save.
  destruct (to_csv d) as [e | []]; [done |].
  destruct (to_parquet d) as [e | []]; [done |].
  destruct (getsize_csv d) as [e | n]; [done |].
  destruct (getsize_parquet d) as [e | m]; done.
Qed.

(** C6, as the code has it.  A failure of either writer never crashes the
    run: the block always returns and the closing message is always
    shown.  When the delimited text form fails, one message
    [Save error: ...] is shown and the columnar form is not attempted;
    when the columnar form fails, the success of the text form has been
    shown before and the same message [Save error: ...] follows. *)
Theorem save_one_handler (d : disk) :
  (save d).2 = inr tt ∧
  last (save d).1 = Some (st_write ready_message) ∧
  (∀ e, to_csv d = inl e →
        (save d).1 = [to_csv_called; st_error ("Save error: " ++ e);
                      st_write ready_message]) ∧
  (∀ e, to_csv d = inr tt → to_parquet d = inl e →
        (save d).1 = [to_csv_called; st_success "Data saved in CSV format";
                      to_parquet_called; st_error ("Save error: " ++ e);
                      st_write ready_message]).
Proof.
  rewrite save_cases.
  destruct (to_csv d) as [e | []], (to_parquet d) as [e' | []],
    (getsize_csv d) as [e1 | n], (getsize_parquet d) as [e2 | m];
    repeat split; intros; simplify_eq; done.
Qed.

Lemma save_one_handler_witness :
  (save csv_fails).1 =
    [to_csv_called; st_error "Save error: Permission denied";
     st_write ready_message] ∧
  (save parquet_fails).1 =
    [to_csv_called; st_success "Data saved in CSV format";
     to_parquet_called; st_error "Save error: Permission denied";
     st_write ready_message].
Proof.
  destruct (save_one_handler csv_fails) as (_ & _ & Hcsv & _).
  destruct (save_one_handler parquet_fails) as (_ & _ & _ & Hparquet).
  split.
  - apply (Hcsv "Permission denied"). reflexivity.
  - apply (Hparquet "Permission denied"); reflexivity.
Defined.

(** C6, as stated, fails.  When the text form cannot be written the
    columnar form is never attempted, so nothing is reported about it; and
    the one message shown is the same whichever form failed. *)
Lemma save_csv_failure_blocks_parquet :
  (to_parquet_called ∉ (save csv_fails).1) ∧
  List.filter (λ ev, match ev with st_error _ => true | _ => false end)
              (save csv_fails).1 =
  List.filter (λ ev, match ev with st_error _ => true | _ => false end)
              (save parquet_fails).1.
Proof.
  split; [| reflexivity].
  rewrite save_cases. simpl.
  rewrite !not_elem_of_cons. repeat split; try discriminate.
  apply not_elem_of_nil.
Qed.

End Saving.

(** * The outlier rules *)

Section Outliers.

Import DataProcessing Examples.

Lemma between_Fin (a b : Q) (x : float64) :
  between (Fin a) (Fin b) x = true ↔
  ∃ q, x = Fin q ∧ (a <= q)%Q ∧ (q <= b)%Q.
Proof.
  unfold between, fge. destruct x as [| | q |]; simpl.
  - split; [done | by intros (q & ? & _)].
  - split; [done | by intros (q & ? & _)].
  - rewrite andb_true_iff, !fle_Fin. split.
    + intros [? ?]. by exists q.
    + intros (q' & [= <-] & ? & ?). done.
  - split; [done | by intros (q & ? & _)].
Qed.

Lemma mask_geo_in_box (r : gmap string cell) :
  mask_geo r = true ↔ Spec.in_box r.
Proof.
  unfold mask_geo, Spec.in_box, of_Z.
  rewrite andb_true_iff, !between_Fin. split.
  - intros [(lat & -> & ? & ?) (lon & -> & ? & ?)].
    exists lat, lon. repeat split; done.
  - intros (lat & lon & -> & -> & ? & ? & ? & ?).
    split; [by exists lat | by exists lon].
Qed.



Lemma filter_split {A : Type} (f : A → bool) (l : list A) :
  (length (List.filter (λ x, negb (f x)) l) + length (List.filter f l))%nat
  = length l.
Proof.
  induction l as [| x l IH]; [done |].
  cbn [List.filter]. destruct (f x); cbn [negb length]; lia.
Qed.

Lemma filter_all {A : Type} (f : A → bool) (l : list A) :
  (length l ≤ length (List.filter f l))%nat ↔ ∀ x, x ∈ l → f x = true.
Proof.
  induction l as [| x l IH].
  - split; [intros _ y Hy; by apply elem_of_nil in Hy | cbn; lia].
  - cbn [List.filter]. pose proof (filter_length_le f l) as Hle.
    destruct (f x) eqn:Hx; cbn [length].
    + rewrite <- Nat.succ_le_mono, IH. split.
      * intros H y [-> | Hy]%elem_of_cons; [done | by apply H].
      * intros H y Hy. apply H. by right.
    + split; [lia |]. intros H. rewrite (H x) in Hx; [done | by left].
Qed.

Lemma filter_some {A : Type} (f : A → bool) (l : list A) :
  (length (List.filter f l) < length l)%nat → ∃ x, x ∈ l ∧ f x = false.
Proof.
  induction l as [| x l IH]; cbn [List.filter length]; [lia |].
  destruct (f x) eqn:Hx; cbn [length]; intros Hlt.
  - destruct IH as (y & Hy & Hf); [lia |]. exists y. split; [by right | done].
  - exists x. split; [by left | done].
Qed.



(** The scenario of the specification: of two points that differ by a
    latitude of 85, the one at 85 is removed and the other kept. *)
Example geo_rule_latitude_85 :
  remove_geo_outliers geo_small =
    Some {| nb_geo_out := Some 1%nat;
            after_geo := {| columns := ["latitude"; "longitude"];
                            rows := [paris] |} |}.
Proof. vm_compute; reflexivity. Qed.


(** The power rule keeps exactly the rows with a power at most 400, so no
    row above 400 survives. *)
Lemma power_rule_nothing_above_400 (df : DataFrame) (step : power_step) :
  has df "puissance_kw" = true →
  remove_power_outliers df = Some step →
  rows (after_power step) =
    List.filter (λ r, fle (num (get r "puissance_kw")) (of_Z 400))
                (rows df) ∧
  ∀ r, r ∈ rows (after_power step) →
       fgt (num (get r "puissance_kw")) (of_Z 400) = false.
Proof.
  intros Hhas. unfold remove_power_outliers. rewrite Hhas.
  destruct (all_comparable "puissance_kw" df); [| done].
  intros [= <-]. simpl. split; [done |].
  intros r [_ Hle]%list_elem_of_In%List.filter_In.
  by apply fle_fgt_exclusive.
Qed.

(** C2 at a table of three cleaned points of 50 kW, unknown power and
    450 kW: one value above 400 kW is counted, and two rows are removed,
    the point of unknown power with the one at 450 kW. *)
Lemma power_rule_drops_unknown_power :
  remove_power_outliers power_table =
    Some {| nb_outliers := Some 1%nat;
            after_power :=
              {| columns := ["puissance_kw"];
                 rows := [ {[ "puissance_kw" := CNum (of_Z 50) ]} ] |} |}.
Proof. vm_compute; reflexivity. Qed.

(** The same from a raw table: a point whose [puissance_nominale] is empty
    is cleaned to an unknown power, no value above 400 kW is counted, and
    the point is removed. *)
Example power_rule_drops_unknown_power_raw :
  (df ← prepare Sample.parse_float Sample.str_float unknown_power_raw;
   step ← remove_power_outliers df;
   Some (length (rows df), nb_outliers step,
         length (rows (after_power step)))) =
    Some (1%nat, Some 0%nat, 0%nat).
Proof. vm_compute; reflexivity. Qed.

End Outliers.

(** * Tables: what each operation does to one column *)

Section FrameFacts.

Import Spec.

Implicit Types (df : DataFrame) (r : gmap string cell) (c : string)
  (cols : list string).

Lemma has_true df c : has df c = true ↔ c ∈ columns df.
Proof. unfold has. apply bool_decide_eq_true. Qed.

Lemma has_false df c : has df c = false ↔ c ∉ columns df.
Proof. unfold has. apply bool_decide_eq_false. Qed.

(** Membership of a label in a list of labels, by computation. *)
Lemma label_in c cols : bool_decide (c ∈ cols) = true → c ∈ cols.
Proof. apply bool_decide_eq_true_1. Qed.

Lemma label_not_in c cols : bool_decide (c ∈ cols) = false → c ∉ cols.
Proof. apply bool_decide_eq_false_1. Qed.

Lemma eqb_false_ne c c' : c ≠ c' → String.eqb c c' = false.
Proof. by intros ?%String.eqb_neq. Qed.

Lemma has_assign c e df c' :
  has (assign c e df) c' = has df c' || String.eqb c' c.
Proof.
  apply eq_true_iff_eq.
  rewrite orb_true_iff, String.eqb_eq, !has_true. unfold assign; simpl.
  destruct (has df c) eqn:Hc.
  - apply has_true in Hc. split; [by left | by intros [? | ->]].
  - rewrite elem_of_app, list_elem_of_singleton. done.
Qed.

Lemma has_drop c df c' :
  has (drop c df) c' = has df c' && negb (String.eqb c' c).
Proof.
  apply eq_true_iff_eq.
  rewrite andb_true_iff, !has_true. unfold drop; simpl.
  by rewrite list_elem_of_In, List.filter_In, <- list_elem_of_In.
Qed.

Lemma has_select cols df c :
  has (select cols df) c = bool_decide (c ∈ cols).
Proof. reflexivity. Qed.

Lemma get_agree r r' c : r' !! c = r !! c → get r' c = get r c.
Proof. unfold get. by intros ->. Qed.

Lemma Forall2_compose {A B C : Type} (P : A → B → Prop) (Q : B → C → Prop)
    (R : A → C → Prop) (l : list A) (k : list B) (m : list C) :
  (∀ x y z, P x y → Q y z → R x z) →
  Forall2 P l k → Forall2 Q k m → Forall2 R l m.
Proof.
  intros HR HP. revert m.
  induction HP as [| x y l k Hxy _ IH]; intros m HQ.
  - inversion HQ. constructor.
  - inversion HQ as [| ? z ? m' Hyz HQ']; subst.
    constructor; [by eapply HR | by apply IH].
Qed.

Lemma Forall2_fmap_row (f : gmap string cell → gmap string cell)
    (P : gmap string cell → gmap string cell → Prop)
    (l : list (gmap string cell)) :
  (∀ r, P r (f r)) → Forall2 P l (f <$> l).
Proof. intros HP. induction l; constructor; auto. Qed.

(** ** [keeps] is a preorder *)

Lemma keeps_refl c df : keeps c df df.
Proof.
  repeat split. intros _. induction (rows df); by constructor.
Qed.

Lemma keeps_trans c df1 df2 df3 :
  keeps c df1 df2 → keeps c df2 df3 → keeps c df1 df3.
Proof.
  intros (Hh & Hl & Hr) (Hh' & Hl' & Hr'). repeat split.
  - congruence.
  - congruence.
  - intros Hc. eapply Forall2_compose; [| by apply Hr | apply Hr'; congruence].
    simpl. congruence.
Qed.

(** ** The operations *)

Lemma keeps_assign c c' e df : c ≠ c' → keeps c df (assign c' e df).
Proof.
  intros Hne. repeat split.
  - by rewrite has_assign, eqb_false_ne, orb_false_r.
  - unfold assign; simpl. by rewrite length_fmap.
  - intros _. apply Forall2_fmap_row. intros r.
    by rewrite lookup_insert_ne.
Qed.

Lemma keeps_drop c c' df : c ≠ c' → keeps c df (drop c' df).
Proof.
  intros Hne. repeat split.
  - by rewrite has_drop, eqb_false_ne, andb_true_r.
  - unfold drop; simpl. by rewrite length_fmap.
  - intros _. apply Forall2_fmap_row. intros r.
    by rewrite lookup_delete_ne.
Qed.

Lemma select_lookup cols r c :
  c ∈ cols → filter (λ kv : string * cell, kv.1 ∈ cols) r !! c = r !! c.
Proof.
  intros Hin. rewrite map_lookup_filter.
  destruct (r !! c) as [v |]; [| done]. simpl.
  by rewrite option_guard_True.
Qed.

(** A selection that lists [c] exactly when the table has it keeps [c]. *)
Lemma keeps_select cols c df :
  (c ∈ cols ↔ c ∈ columns df) → keeps c df (select cols df).
Proof.
  intros Hiff. repeat split.
  - rewrite has_select. unfold has. by apply bool_decide_ext.
  - unfold select; simpl. by rewrite length_fmap.
  - intros Hc%has_true. apply Forall2_fmap_row. intros r.
    apply select_lookup. by apply Hiff.
Qed.

(** What [df[c] = e] puts in column [c], given what [e] reads. *)
Lemma assign_effect c e df :
  has (assign c e df) c = true ∧
  Forall2 (λ r r', r' !! c = Some (e r)) (rows df) (rows (assign c e df)).
Proof.
  split.
  - by rewrite has_assign, String.eqb_refl, orb_true_r.
  - apply Forall2_fmap_row. intros r. by rewrite lookup_insert_eq.
Qed.

End FrameFacts.

(** * [clean_irve], step by step *)

Section CleaningFacts.

Import Spec Cleaning.

Variable parse_float : string → float64.
Variable str_float : Q → string.

Implicit Types (df : DataFrame) (r : gmap string cell) (c : string).

Local Abbreviation to_numeric := (to_numeric parse_float).
Local Abbreviation fill_from := (fill_from parse_float).
Local Abbreviation consolidate_coordinates :=
  (consolidate_coordinates parse_float).
Local Abbreviation derive_power := (derive_power parse_float).
Local Abbreviation derive_access_24_7 := (derive_access_24_7 str_float).
Local Abbreviation derive_est_publique := (derive_est_publique str_float).
Local Abbreviation derive_statut := (derive_statut str_float).
Local Abbreviation clean_irve := (clean_irve parse_float str_float).

(** ** 1) Selection of the known columns *)

Lemma keeps_select_present c df :
  c ∈ cols → keeps c df (select_present df).
Proof.
  clear parse_float str_float.
  intros Hin. apply keeps_select.
  rewrite list_elem_of_In, List.filter_In, <- list_elem_of_In, has_true.
  tauto.
Qed.

Lemma has_select_present_unknown c df :
  c ∉ cols → has (select_present df) c = false.
Proof.
  clear parse_float str_float.
  intros Hout. apply has_false. unfold select_present, select.
  cbn [columns].
  rewrite list_elem_of_In, List.filter_In, <- list_elem_of_In. tauto.
Qed.

(** ** 2) Coordinates *)

Lemma keeps_fill_from c target fallback df :
  c ≠ target → keeps c df (fill_from target fallback df).
Proof.
  intros Hne. unfold Cleaning.fill_from.
  destruct (has df fallback); [| apply keeps_refl].
  destruct (has df target);
    (eapply keeps_trans; [by apply (keeps_assign _ target) |]);
    by apply (keeps_assign _ target).
Qed.

Lemma fill_from_absent target fallback df :
  has df fallback = false → fill_from target fallback df = df.
Proof. unfold Cleaning.fill_from. by intros ->. Qed.

(** With the fallback column present, the target becomes the parsed
    target, or the parsed fallback where that is missing. *)
Lemma fill_from_effect target fallback df :
  target ≠ fallback →
  has df fallback = true →
  has (fill_from target fallback df) target = true ∧
  Forall2
    (λ r r', r' !! target =
       Some (CNum (fillna
               (if has df target then to_numeric (get r target) else NaN)
               (to_numeric (get r fallback)))))
    (rows df) (rows (fill_from target fallback df)).
Proof.
  intros Hne Hfb. unfold Cleaning.fill_from. rewrite Hfb.
  split; [apply assign_effect |].
  assert (∀ x y, cell_fillna (CNum x) (CNum y) = CNum (fillna x y)) as Hfill
    by (by intros [] ?).
  destruct (has df target); unfold assign; cbn [rows];
    rewrite <- list_fmap_compose; apply Forall2_fmap_row; intros r;
    cbn [compose]; rewrite lookup_insert_eq; unfold get;
    rewrite lookup_insert_eq, lookup_insert_ne by done; cbn [default];
    unfold id; by rewrite Hfill.
Qed.

Lemma keeps_consolidate c df :
  c ≠ "latitude" → c ≠ "longitude" →
  keeps c df (consolidate_coordinates df).
Proof.
  intros Hlat Hlon. unfold Cleaning.consolidate_coordinates.
  eapply keeps_trans;
    [by apply (keeps_fill_from _ "longitude" "consolidated_longitude") |].
  eapply keeps_trans;
    [by apply (keeps_fill_from _ "latitude" "consolidated_latitude") |].
  by apply (keeps_fill_from _ "latitude" "consolidated_lagitude").
Qed.

(** ** 3) Power *)

Lemma keeps_derive_power c df :
  c ≠ "puissance_kw" → c ≠ "categorie_puissance" →
  keeps c df (derive_power df).
Proof.
  intros Hkw Hcat. unfold Cleaning.derive_power.
  destruct (has df "puissance_nominale"); [| apply keeps_refl].
  eapply keeps_trans; [by apply (keeps_assign _ "puissance_kw") |].
  by apply (keeps_assign _ "categorie_puissance").
Qed.

Lemma derive_power_absent df :
  has df "puissance_nominale" = false → derive_power df = df.
Proof. unfold Cleaning.derive_power. by intros ->. Qed.

Lemma derive_power_effect df :
  has df "puissance_nominale" = true →
  has (derive_power df) "puissance_kw" = true ∧
  has (derive_power df) "categorie_puissance" = true ∧
  Forall2
    (λ r r',
       let kw := clip_lower (of_Z 0)
                   (to_numeric (get r "puissance_nominale")) in
       r' !! "puissance_kw" = Some (CNum kw) ∧
       r' !! "categorie_puissance" = Some (CStr (_bin kw)))
    (rows df) (rows (derive_power df)).
Proof.
  intros Hpn. unfold Cleaning.derive_power. rewrite Hpn.
  split; [| split].
  - by rewrite !has_assign, orb_true_r.
  - apply assign_effect.
  - unfold assign; cbn [rows]. rewrite <- list_fmap_compose.
    apply Forall2_fmap_row. intros r. cbn [compose]. unfold get. split.
    + rewrite lookup_insert_ne by done. apply lookup_insert_eq.
    + by rewrite !lookup_insert_eq.
Qed.

(** ** 4) [is_dc] *)

Lemma keeps_derive_is_dc c df : c ≠ "is_dc" → keeps c df (derive_is_dc df).
Proof.
  intros Hne. unfold derive_is_dc.
  destruct (has df "connecteur"); [by apply keeps_assign |].
  destruct (has df "puissance_kw"); [by apply keeps_assign |].
  apply keeps_refl.
Qed.




(** ** 5) to 9) and the final drops *)

Lemma keeps_derive_access_24_7 c df :
  c ≠ "access_24_7" → keeps c df (derive_access_24_7 df).
Proof.
  intros Hne. unfold Cleaning.derive_access_24_7.
  destruct (has df "horaires"); by apply keeps_assign.
Qed.

Lemma keeps_derive_est_publique c df :
  c ≠ "est_publique" → keeps c df (derive_est_publique df).
Proof. intros Hne. by apply keeps_assign. Qed.

Lemma keeps_derive_statut c df :
  c ≠ "statut_normalise" → keeps c df (derive_statut df).
Proof.
  intros Hne. unfold Cleaning.derive_statut.
  destruct (has df "etat_pdc"); [by apply keeps_assign |].
  destruct (has df "statut_pdc"); [by apply keeps_assign |].
  apply keeps_refl.
Qed.

Lemma keeps_drop_if_present c c' df :
  c ≠ c' → keeps c df (drop_if_present c' df).
Proof.
  intros Hne. unfold drop_if_present.
  destruct (has df c'); [by apply keeps_drop | apply keeps_refl].
Qed.

Lemma keeps_reorder c df : keeps c df (reorder df).
Proof.
  clear parse_float str_float.
  unfold reorder. cbv zeta. apply keeps_select.
  assert (∀ (f : string → bool) l, c ∈ List.filter f l ↔ c ∈ l ∧ f c = true)
    as Hfilter.
  { intros f l. by rewrite !list_elem_of_In, List.filter_In. }
  rewrite elem_of_app, !Hfilter, negb_true_iff, bool_decide_eq_false,
    Hfilter, has_true.
  destruct (decide (c ∈ front_cols)); tauto.
Qed.

(** The steps after [is_dc], as one function. *)
Lemma clean_irve_steps df :
  clean_irve df =
    drop_if_present "consolidated_longitude"
      (drop_if_present "consolidated_latitude"
         (reorder
            (drop_if_present "code_insee_commune"
               (derive_statut
                  (derive_est_publique
                     (derive_access_24_7
                        (derive_is_dc
                           (derive_power
                              (consolidate_coordinates
                                 (select_present df)))))))))).
Proof. reflexivity. Qed.

Lemma keeps_after_is_dc c df :
  c ≠ "access_24_7" → c ≠ "est_publique" → c ≠ "statut_normalise" →
  c ≠ "code_insee_commune" → c ≠ "consolidated_latitude" →
  c ≠ "consolidated_longitude" →
  keeps c df
    (drop_if_present "consolidated_longitude"
       (drop_if_present "consolidated_latitude"
          (reorder
             (drop_if_present "code_insee_commune"
                (derive_statut
                   (derive_est_publique (derive_access_24_7 df))))))).
Proof.
  intros.
  eapply keeps_trans; [by apply keeps_derive_access_24_7 |].
  eapply keeps_trans; [by apply keeps_derive_est_publique |].
  eapply keeps_trans; [by apply keeps_derive_statut |].
  eapply keeps_trans;
    [by apply (keeps_drop_if_present _ "code_insee_commune") |].
  eapply keeps_trans; [by apply keeps_reorder |].
  eapply keeps_trans;
    [by apply (keeps_drop_if_present _ "consolidated_latitude") |].
  by apply (keeps_drop_if_present _ "consolidated_longitude").
Qed.

End CleaningFacts.

(** * [clean_irve]: the derived fields *)

Section DerivedFields.

Import Spec Cleaning.

Variable parse_float : string → float64.
Variable str_float : Q → string.

Implicit Types (df : DataFrame) (r : gmap string cell) (c : string).

Local Abbreviation to_numeric := (to_numeric parse_float).
Local Abbreviation consolidate_coordinates :=
  (consolidate_coordinates parse_float).
Local Abbreviation derive_power := (derive_power parse_float).
Local Abbreviation clean_irve := (clean_irve parse_float str_float).

(** Reading [keeps] and a row-by-row relation at one row. *)
Lemma keeps_row c df df' i r r' :
  keeps c df df' → has df c = true →
  rows df !! i = Some r → rows df' !! i = Some r' →
  r' !! c = r !! c.
Proof.
  intros (_ & _ & Hrows) Hc Hr Hr'.
  exact (Forall2_lookup_lr _ _ _ _ _ _ (Hrows Hc) Hr Hr').
Qed.

Lemma keeps_row_exists c df df' i r :
  keeps c df df' → rows df !! i = Some r → is_Some (rows df' !! i).
Proof.
  intros (_ & Hlen & _) Hr. apply lookup_lt_is_Some. rewrite Hlen.
  by apply lookup_lt_Some in Hr.
Qed.

Lemma keeps_back_exists c df df' i r' :
  keeps c df df' → rows df' !! i = Some r' → is_Some (rows df !! i).
Proof.
  intros (_ & Hlen & _) Hr. apply lookup_lt_is_Some. rewrite <- Hlen.
  by apply lookup_lt_Some in Hr.
Qed.

(** The table before the power step carries every known column of the raw
    table but the two coordinates. *)
Lemma keeps_before_power c df :
  c ∈ cols → c ≠ "latitude" → c ≠ "longitude" →
  keeps c df (consolidate_coordinates (select_present df)).
Proof.
  intros Hin Hlat Hlon.
  eapply keeps_trans; [by apply keeps_select_present |].
  by apply keeps_consolidate.
Qed.

(** A label is one of the known columns. *)
Local Ltac known_column := apply label_in; vm_compute; reflexivity.

Lemma keeps_id_station df : keeps "id_station" df (clean_irve df).
Proof.
  rewrite clean_irve_steps.
  eapply keeps_trans; [apply keeps_before_power; [known_column | done..] |].
  eapply keeps_trans; [by apply keeps_derive_power |].
  eapply keeps_trans; [by apply keeps_derive_is_dc |].
  by apply keeps_after_is_dc.
Qed.

(** [clean_irve] neither adds nor removes rows. *)
Lemma clean_irve_length df : length (rows (clean_irve df)) = length (rows df).
Proof. by destruct (keeps_id_station df) as (_ & ? & _). Qed.

(** ** Rated power *)

Lemma clean_irve_power df i r r' :
  has df "puissance_nominale" = true →
  rows df !! i = Some r →
  rows (clean_irve df) !! i = Some r' →
  let kw := clip_lower (of_Z 0) (to_numeric (get r "puissance_nominale")) in
  has (clean_irve df) "puissance_kw" = true ∧
  r' !! "puissance_kw" = Some (CNum kw) ∧
  r' !! "categorie_puissance" = Some (CStr (_bin kw)).
Proof.
  intros Hpn Hr Hr' kw. rewrite clean_irve_steps in *.
  set (df2 := consolidate_coordinates (select_present df)) in *.
  set (df3 := derive_power df2) in *.
  set (df4 := derive_is_dc df3) in *.
  assert (keeps "puissance_nominale" df df2) as K2
    by (apply keeps_before_power; [known_column | done..]).
  assert (has df2 "puissance_nominale" = true) as Hpn2
    by (destruct K2 as (-> & _); done).
  destruct (derive_power_effect parse_float df2 Hpn2) as (Hkw3 & Hcat3 & E3).
  fold df3 in Hkw3, Hcat3, E3.
  assert (∀ c, c ≠ "is_dc" → c ≠ "access_24_7" → c ≠ "est_publique" →
               c ≠ "statut_normalise" → c ≠ "code_insee_commune" →
               c ≠ "consolidated_latitude" → c ≠ "consolidated_longitude" →
               keeps c df3 (drop_if_present "consolidated_longitude"
                 (drop_if_present "consolidated_latitude" (reorder
                   (drop_if_present "code_insee_commune"
                     (derive_statut str_float (derive_est_publique str_float
                       (derive_access_24_7 str_float df4)))))))) as Kend.
  { intros c ???????.
    eapply keeps_trans; [by apply keeps_derive_is_dc |].
    by apply keeps_after_is_dc. }
  destruct (keeps_row_exists _ _ _ _ _ K2 Hr) as [r2 Hr2].
  assert (keeps "id_station" df2 df3) as K3 by (by apply keeps_derive_power).
  destruct (keeps_row_exists _ _ _ _ _ K3 Hr2) as [r3 Hr3].
  pose proof (keeps_row _ _ _ _ _ _ K2 Hpn Hr Hr2) as Hsame.
  pose proof (Forall2_lookup_lr _ _ _ _ _ _ E3 Hr2 Hr3) as [Hkw Hcat].
  cbv zeta in Hkw, Hcat. unfold get in Hkw, Hcat. rewrite Hsame in Hkw, Hcat.
  split; [| split].
  - destruct (Kend "puissance_kw") as (-> & _); done.
  - rewrite (keeps_row _ _ _ _ _ _ (Kend "puissance_kw" ltac:(done)
      ltac:(done) ltac:(done) ltac:(done) ltac:(done) ltac:(done)
      ltac:(done)) Hkw3 Hr3 Hr'). exact Hkw.
  - rewrite (keeps_row _ _ _ _ _ _ (Kend "categorie_puissance" ltac:(done)
      ltac:(done) ltac:(done) ltac:(done) ltac:(done) ltac:(done)
      ltac:(done)) Hcat3 Hr3 Hr'). exact Hcat.
Qed.

Lemma clean_irve_no_power c df :
  c = "puissance_kw" ∨ c = "categorie_puissance" →
  has df "puissance_nominale" = false →
  has (clean_irve df) c = false.
Proof.
  intros Hc Hpn. rewrite clean_irve_steps.
  set (df1 := select_present df).
  set (df2 := consolidate_coordinates df1).
  assert (has df2 "puissance_nominale" = false) as Hpn2.
  { unfold df2, df1.
    destruct (keeps_before_power "puissance_nominale" df) as (-> & _);
      [known_column | done..]. }
  assert (has df2 c = false) as Hc2.
  { unfold df2.
    destruct (keeps_consolidate parse_float c df1) as (-> & _);
      [by destruct Hc as [-> | ->].. |].
    apply has_select_present_unknown.
    destruct Hc as [-> | ->]; refine (label_not_in _ _ _); vm_compute;
      reflexivity. }
  rewrite (derive_power_absent parse_float df2 Hpn2).
  assert (keeps c df2
            (drop_if_present "consolidated_longitude"
              (drop_if_present "consolidated_latitude" (reorder
                (drop_if_present "code_insee_commune"
                  (derive_statut str_float (derive_est_publique str_float
                    (derive_access_24_7 str_float (derive_is_dc df2))))))))) as K.
  { eapply keeps_trans; [apply keeps_derive_is_dc |
                         apply keeps_after_is_dc];
      by destruct Hc as [-> | ->]. }
  destruct K as (-> & _). exact Hc2.
Qed.

(** C8. In a table with a [puissance_nominale] column the cleaned rated
    power of every row is [max(0, p)] for the parsed raw power [p], and is
    absent when the raw power is absent or does not parse; -5 gives 0.  In
    any cleaned table, a rated power is never negative. *)
Theorem rated_power_clipped (df : DataFrame) (i : nat) :
  (∀ r, has df "puissance_nominale" = true →
        rows df !! i = Some r →
        let p := to_numeric (get r "puissance_nominale") in
        ∃ r' kw,
          rows (clean_irve df) !! i = Some r' ∧
          r' !! "puissance_kw" = Some (CNum kw) ∧
          same_number kw (max0 p) ∧
          (isnan p = true → kw = NaN) ∧
          (p = of_Z (-5) → kw = of_Z 0)) ∧
  (∀ r', has (clean_irve df) "puissance_kw" = true →
         rows (clean_irve df) !! i = Some r' →
         ∃ kw, r' !! "puissance_kw" = Some (CNum kw) ∧
               flt kw (of_Z 0) = false).
Proof.
  split.
  - intros r Hpn Hr p.
    destruct (keeps_row_exists _ _ _ _ _ (keeps_id_station df) Hr)
      as [r' Hr'].
    destruct (clean_irve_power df i r r' Hpn Hr Hr') as (_ & Hkw & _).
    exists r', (clip_lower (of_Z 0) p). repeat split; try done.
    + apply clip_lower_0_max.
    + by destruct p.
    + by intros ->.
  - intros r' Hkw Hr'.
    destruct (has df "puissance_nominale") eqn:Hpn.
    + destruct (keeps_back_exists _ _ _ _ _ (keeps_id_station df) Hr')
        as [r Hr].
      destruct (clean_irve_power df i r r' Hpn Hr Hr') as (_ & Hval & _).
      eexists. split; [exact Hval |]. apply clip_lower_0_not_negative.
    + rewrite clean_irve_no_power in Hkw; by auto.
Qed.


(** ** AC or DC *)


Lemma keeps_after_power c df :
  c ≠ "is_dc" → c ≠ "access_24_7" → c ≠ "est_publique" →
  c ≠ "statut_normalise" → c ≠ "code_insee_commune" →
  c ≠ "consolidated_latitude" → c ≠ "consolidated_longitude" →
  keeps c df
    (drop_if_present "consolidated_longitude"
       (drop_if_present "consolidated_latitude"
          (reorder
             (drop_if_present "code_insee_commune"
                (derive_statut str_float
                   (derive_est_publique str_float
                      (derive_access_24_7 str_float
                         (derive_is_dc df)))))))).
Proof.
  intros. eapply keeps_trans; [by apply keeps_derive_is_dc |].
  by apply keeps_after_is_dc.
Qed.







(** ** Coordinates *)

Lemma fillna_twice (p a b : float64) :
  fillna (fillna p a) b = first_number [p; a; b].
Proof. destruct p, a, b; reflexivity. Qed.

Lemma fillna_first (p a : float64) :
  fillna p a = first_number [p; a].
Proof. destruct p, a; reflexivity. Qed.

Lemma fillna_first_skip (p b : float64) :
  fillna p b = first_number [p; NaN; b].
Proof. destruct p, b; reflexivity. Qed.

Lemma fillna_first_end (p a : float64) :
  fillna p a = first_number [p; a; NaN].
Proof. destruct p, a; reflexivity. Qed.

(** A kept column parses to the same number before and after. *)
Lemma parsed_keeps c df df' i r r' :
  keeps c df df' →
  rows df !! i = Some r → rows df' !! i = Some r' →
  parsed parse_float df' r' c = parsed parse_float df r c.
Proof.
  intros K Hr Hr'. unfold parsed.
  destruct K as (Hhas & Hlen & Hrows). rewrite Hhas.
  destruct (has df c) eqn:Hc; [| done].
  unfold get.
  by rewrite (Forall2_lookup_lr _ _ _ _ _ _ (Hrows eq_refl) Hr Hr').
Qed.

Lemma fill_from_row target fallback df i r r' :
  target ≠ fallback →
  has df fallback = true →
  rows df !! i = Some r →
  rows (fill_from parse_float target fallback df) !! i = Some r' →
  r' !! target =
    Some (CNum (fillna (parsed parse_float df r target)
                       (parsed parse_float df r fallback))).
Proof.
  intros Hne Hfb Hr Hr'.
  destruct (fill_from_effect parse_float target fallback df Hne Hfb)
    as [_ E].
  rewrite (Forall2_lookup_lr _ _ _ _ _ _ E Hr Hr').
  unfold parsed. by rewrite Hfb.
Qed.

(** A cell that holds a number parses to that number. *)
Lemma parsed_number c df r x :
  has df c = true → r !! c = Some (CNum x) → parsed parse_float df r c = x.
Proof. intros Hc Hx. unfold parsed, get. by rewrite Hc, Hx. Qed.

Lemma parsed_absent c df r :
  has df c = false → parsed parse_float df r c = NaN.
Proof. intros Hc. unfold parsed. by rewrite Hc. Qed.

Lemma consolidate_latitude df i r r3 :
  has df "consolidated_latitude" || has df "consolidated_lagitude" = true →
  rows df !! i = Some r →
  rows (consolidate_coordinates df) !! i = Some r3 →
  has (consolidate_coordinates df) "latitude" = true ∧
  r3 !! "latitude" =
    Some (CNum (first_number
                  [parsed parse_float df r "latitude";
                   parsed parse_float df r "consolidated_latitude";
                   parsed parse_float df r "consolidated_lagitude"])).
Proof.
  intros Hfb Hr Hr3. unfold Cleaning.consolidate_coordinates in *.
  set (df1 := fill_from parse_float "longitude" "consolidated_longitude" df)
    in *.
  set (df2 := fill_from parse_float "latitude" "consolidated_latitude" df1)
    in *.
  assert (∀ c, c ≠ "longitude" → keeps c df df1) as K1
    by (intros c ?; by apply keeps_fill_from).
  assert (∀ c, c ≠ "latitude" → keeps c df1 df2) as K2
    by (intros c ?; by apply keeps_fill_from).
  destruct (keeps_row_exists _ _ _ _ _ (K1 "latitude" ltac:(done)) Hr)
    as [r1 Hr1].
  destruct (keeps_row_exists _ _ _ _ _
              (K2 "consolidated_latitude" ltac:(done)) Hr1) as [r2 Hr2].
  assert (∀ c, c ≠ "longitude" →
               parsed parse_float df1 r1 c = parsed parse_float df r c) as P1
    by (intros c ?; eapply parsed_keeps; eauto).
  assert (∀ c, c ≠ "latitude" →
               parsed parse_float df2 r2 c = parsed parse_float df1 r1 c)
    as P2 by (intros c ?; eapply parsed_keeps; eauto).
  assert (∀ c, c ≠ "longitude" → has df1 c = has df c) as H1
    by (intros c Hc; by destruct (K1 c Hc)).
  assert (∀ c, c ≠ "latitude" → has df2 c = has df1 c) as H2
    by (intros c Hc; by destruct (K2 c Hc)).
  destruct (has df "consolidated_latitude") eqn:Hclat.
  - assert (has df1 "consolidated_latitude" = true) as Hclat1
      by (by rewrite H1).
    pose proof (fill_from_row "latitude" "consolidated_latitude" df1 i r1 r2
                  ltac:(done) Hclat1 Hr1 Hr2) as Hlat2.
    rewrite !P1 in Hlat2 by done.
    destruct (fill_from_effect parse_float "latitude" "consolidated_latitude"
                df1 ltac:(done) Hclat1) as [Hhas2 _].
    fold df2 in Hhas2.
    destruct (has df "consolidated_lagitude") eqn:Hclag.
    + assert (has df2 "consolidated_lagitude" = true) as Hclag2
        by (by rewrite H2, H1).
      destruct (fill_from_effect parse_float "latitude"
                  "consolidated_lagitude" df2 ltac:(done) Hclag2)
        as [Hhas3 _].
      split; [exact Hhas3 |].
      rewrite (fill_from_row "latitude" "consolidated_lagitude" df2 i r2 r3
                 ltac:(done) Hclag2 Hr2 Hr3).
      rewrite (parsed_number _ _ _ _ Hhas2 Hlat2), P2, P1 by done.
      by rewrite fillna_twice.
    + assert (has df2 "consolidated_lagitude" = false) as Hclag2
        by (by rewrite H2, H1).
      rewrite (fill_from_absent parse_float _ _ _ Hclag2) in Hr3 |- *.
      split; [exact Hhas2 |].
      assert (r3 = r2) as -> by congruence.
      rewrite Hlat2, (parsed_absent "consolidated_lagitude" df r Hclag).
      by rewrite fillna_first_end.
  - simpl in Hfb.
    assert (has df1 "consolidated_latitude" = false) as Hclat1
      by (by rewrite H1).
    assert (df2 = df1) as Heq
      by (apply (fill_from_absent parse_float); exact Hclat1).
    rewrite Heq in *.
    assert (has df1 "consolidated_lagitude" = true) as Hclag1
      by (by rewrite H1).
    destruct (fill_from_effect parse_float "latitude"
                "consolidated_lagitude" df1 ltac:(done) Hclag1)
      as [Hhas3 _].
    split; [exact Hhas3 |].
    rewrite (fill_from_row "latitude" "consolidated_lagitude" df1 i r1 r3
               ltac:(done) Hclag1 Hr1 Hr3).
    rewrite !P1 by done.
    rewrite (parsed_absent "consolidated_latitude" df r Hclat).
    by rewrite fillna_first_skip.
Qed.

Lemma consolidate_longitude df i r r3 :
  has df "consolidated_longitude" = true →
  rows df !! i = Some r →
  rows (consolidate_coordinates df) !! i = Some r3 →
  has (consolidate_coordinates df) "longitude" = true ∧
  r3 !! "longitude" =
    Some (CNum (first_number
                  [parsed parse_float df r "longitude";
                   parsed parse_float df r "consolidated_longitude"])).
Proof.
  intros Hclon Hr Hr3. unfold Cleaning.consolidate_coordinates in *.
  set (df1 := fill_from parse_float "longitude" "consolidated_longitude" df)
    in *.
  assert (keeps "longitude" df1
            (fill_from parse_float "latitude" "consolidated_lagitude"
               (fill_from parse_float "latitude" "consolidated_latitude"
                  df1))) as K.
  { eapply keeps_trans; by apply keeps_fill_from. }
  destruct (fill_from_effect parse_float "longitude" "consolidated_longitude"
              df ltac:(done) Hclon) as [Hhas1 _].
  fold df1 in Hhas1.
  destruct (keeps_back_exists _ _ _ _ _ K Hr3) as [r1 Hr1].
  split; [by destruct K as (-> & _) |].
  rewrite (keeps_row _ _ _ _ _ _ K Hhas1 Hr1 Hr3).
  rewrite (fill_from_row "longitude" "consolidated_longitude" df i r r1
             ltac:(done) Hclon Hr Hr1).
  by rewrite fillna_first.
Qed.

Lemma consolidate_latitude_untouched df :
  has df "consolidated_latitude" || has df "consolidated_lagitude" = false →
  keeps "latitude" df (consolidate_coordinates df).
Proof.
  intros [Hclat Hclag]%orb_false_elim.
  unfold Cleaning.consolidate_coordinates.
  set (df1 := fill_from parse_float "longitude" "consolidated_longitude" df).
  assert (∀ c, c ≠ "longitude" → keeps c df df1) as K1
    by (intros c ?; by apply keeps_fill_from).
  assert (has df1 "consolidated_latitude" = false) as Hclat1
    by (destruct (K1 "consolidated_latitude") as (-> & _); done).
  assert (has df1 "consolidated_lagitude" = false) as Hclag1
    by (destruct (K1 "consolidated_lagitude") as (-> & _); done).
  rewrite (fill_from_absent parse_float _ _ _ Hclat1).
  rewrite (fill_from_absent parse_float _ _ _ Hclag1).
  by apply K1.
Qed.

Lemma consolidate_longitude_untouched df :
  has df "consolidated_longitude" = false →
  keeps "longitude" df (consolidate_coordinates df).
Proof.
  intros Hclon. unfold Cleaning.consolidate_coordinates.
  rewrite (fill_from_absent parse_float _ _ _ Hclon).
  eapply keeps_trans; by apply keeps_fill_from.
Qed.

(** A coordinate leaves the coordinate step as it leaves [clean_irve]. *)
Lemma keeps_after_coordinates c df :
  c = "latitude" ∨ c = "longitude" →
  keeps c df
    (drop_if_present "consolidated_longitude"
       (drop_if_present "consolidated_latitude"
          (reorder
             (drop_if_present "code_insee_commune"
                (derive_statut str_float
                   (derive_est_publique str_float
                      (derive_access_24_7 str_float
                         (derive_is_dc (derive_power df))))))))).
Proof.
  intros Hc.
  eapply keeps_trans; [apply keeps_derive_power; by destruct Hc as [-> | ->] |].
  apply keeps_after_power; by destruct Hc as [-> | ->].
Qed.

(** C7, as the code has it.  When the table has a fallback column for the
    coordinate ([consolidated_latitude] or the misspelled
    [consolidated_lagitude] for the latitude, [consolidated_longitude] for
    the longitude), the consolidated coordinate of every row is the parsed
    primary value when it is present and parses, otherwise the first
    fallback value, in that order, that parses, otherwise absent; the
    misspelled column is one fallback among the others.  When the table has
    no fallback column for the coordinate, the primary column is left as it
    is, unparsed.  [clean_irve] returns a row for every row: parsing never
    raises. *)
Theorem coordinates_consolidated (df : DataFrame) (i : nat)
    (r : gmap string cell) :
  rows df !! i = Some r →
  ∃ r',
    rows (clean_irve df) !! i = Some r' ∧
    (has df "consolidated_latitude" || has df "consolidated_lagitude" = true →
       r' !! "latitude" =
         Some (CNum (first_number
                       [parsed parse_float df r "latitude";
                        parsed parse_float df r "consolidated_latitude";
                        parsed parse_float df r "consolidated_lagitude"]))) ∧
    (has df "consolidated_latitude" || has df "consolidated_lagitude" = false →
       has (clean_irve df) "latitude" = has df "latitude" ∧
       (has df "latitude" = true → r' !! "latitude" = r !! "latitude")) ∧
    (has df "consolidated_longitude" = true →
       r' !! "longitude" =
         Some (CNum (first_number
                       [parsed parse_float df r "longitude";
                        parsed parse_float df r "consolidated_longitude"]))) ∧
    (has df "consolidated_longitude" = false →
       has (clean_irve df) "longitude" = has df "longitude" ∧
       (has df "longitude" = true → r' !! "longitude" = r !! "longitude")).
Proof.
  intros Hr.
  destruct (keeps_row_exists _ _ _ _ _ (keeps_id_station df) Hr) as [r' Hr'].
  exists r'. split; [exact Hr' |].
  rewrite clean_irve_steps in *.
  set (df1 := select_present df) in *.
  set (df2 := consolidate_coordinates df1) in *.
  assert (∀ c, c ∈ cols → keeps c df df1) as K1
    by (intros c ?; by apply keeps_select_present).
  assert (∀ c, c ∈ cols → has df1 c = has df c) as H1
    by (intros c Hc; by destruct (K1 c Hc)).
  assert (∀ c, c = "latitude" ∨ c = "longitude" →
               keeps c df2
                 (drop_if_present "consolidated_longitude"
                   (drop_if_present "consolidated_latitude" (reorder
                     (drop_if_present "code_insee_commune"
                       (derive_statut str_float
                         (derive_est_publique str_float
                           (derive_access_24_7 str_float
                             (derive_is_dc (derive_power df2)))))))))) as K3
    by (intros c Hc; by apply keeps_after_coordinates).
  destruct (keeps_row_exists _ _ _ _ _ (K1 "id_station" ltac:(known_column))
              Hr) as [r1 Hr1].
  destruct (keeps_back_exists _ _ _ _ _ (K3 "latitude" ltac:(by left)) Hr')
    as [r2 Hr2].
  assert (∀ c, c ∈ cols →
               parsed parse_float df1 r1 c = parsed parse_float df r c) as P1
    by (intros c Hc; eapply parsed_keeps; eauto).
  split; [| split; [| split]].
  - intros Hfb.
    rewrite <- !H1 in Hfb by known_column.
    destruct (consolidate_latitude df1 i r1 r2 Hfb Hr1 Hr2) as [Hhas2 Hlat2].
    rewrite (keeps_row _ _ _ _ _ _ (K3 "latitude" ltac:(by left))
               Hhas2 Hr2 Hr').
    rewrite Hlat2, !P1 by known_column. done.
  - intros Hfb.
    rewrite <- !H1 in Hfb by known_column.
    pose proof (keeps_trans _ _ _ _
                  (keeps_trans _ _ _ _ (K1 "latitude" ltac:(known_column))
                     (consolidate_latitude_untouched df1 Hfb))
                  (K3 "latitude" ltac:(by left))) as K.
    split; [by destruct K as (-> & _) |].
    intros Hlat. exact (keeps_row _ _ _ _ _ _ K Hlat Hr Hr').
  - intros Hclon.
    rewrite <- H1 in Hclon by known_column.
    destruct (consolidate_longitude df1 i r1 r2 Hclon Hr1 Hr2)
      as [Hhas2 Hlon2].
    rewrite (keeps_row _ _ _ _ _ _ (K3 "longitude" ltac:(by right))
               Hhas2 Hr2 Hr').
    rewrite Hlon2, !P1 by known_column. done.
  - intros Hclon.
    rewrite <- H1 in Hclon by known_column.
    pose proof (keeps_trans _ _ _ _
                  (keeps_trans _ _ _ _ (K1 "longitude" ltac:(known_column))
                     (consolidate_longitude_untouched df1 Hclon))
                  (K3 "longitude" ltac:(by right))) as K.
    split; [by destruct K as (-> & _) |].
    intros Hlon. exact (keeps_row _ _ _ _ _ _ K Hlon Hr Hr').
Qed.


(** ** Power category *)

(** C9. In every cleaned record the power category is given by fixed
    half-open bins on the rated power: [AC_lente] (ac_slow) exactly for
    power <= 7, [AC_standard] for 7 < power <= 22, [DC_moyenne] (dc_medium)
    for 22 < power <= 49, [DC_rapide] (dc_fast) for 49 < power <= 149,
    [DC_ultra] for power > 149, and [inconnu] (unknown) exactly when the
    power is absent. *)
Theorem power_category_half_open_bins (df : DataFrame) (i : nat)
    (r' : gmap string cell) :
  has (clean_irve df) "categorie_puissance" = true →
  rows (clean_irve df) !! i = Some r' →
  ∃ kw cat,
    r' !! "puissance_kw" = Some (CNum kw) ∧
    r' !! "categorie_puissance" = Some (CStr cat) ∧
    cat = _bin kw ∧
    (cat = "inconnu" ↔ isnan kw = true) ∧
    (cat = "AC_lente" ↔ fle kw (of_Z 7) = true) ∧
    (cat = "AC_standard" ↔
       fgt kw (of_Z 7) = true ∧ fle kw (of_Z 22) = true) ∧
    (cat = "DC_moyenne" ↔
       fgt kw (of_Z 22) = true ∧ fle kw (of_Z 49) = true) ∧
    (cat = "DC_rapide" ↔
       fgt kw (of_Z 49) = true ∧ fle kw (of_Z 149) = true) ∧
    (cat = "DC_ultra" ↔ fgt kw (of_Z 149) = true).
Proof.
  intros Hcat Hr'.
  destruct (has df "puissance_nominale") eqn:Hpn.
  - destruct (keeps_back_exists _ _ _ _ _ (keeps_id_station df) Hr')
      as [r Hr].
    destruct (clean_irve_power df i r r' Hpn Hr Hr') as (_ & Hkw & Hc).
    eexists _, _. split; [exact Hkw |]. split; [exact Hc |].
    split; [reflexivity |]. apply bin_bins.
  - rewrite clean_irve_no_power in Hcat; by auto.
Qed.

(** ** The scenario of the specification *)

(** C5, as the code has it.  The raw row with address
    [12 Rue de Paris, 75010 Paris], connector [CCS] and rated power 150
    is prepared into one row with postal code 75010, department 75,
    [is_dc] true, rated power 150 and power category [DC_ultra]
    (dc_ultra): 150 lies above the bin that ends at 149. *)
Theorem scenario_row :
  ∃ r',
    DataProcessing.prepare parse_float str_float Examples.scenario
      = Some Examples.scenario_prepared ∧
    rows Examples.scenario_prepared = [r'] ∧
    r' !! "code_postal" = Some (CStr "75010") ∧
    r' !! "departement" = Some (CStr "75") ∧
    r' !! "is_dc" = Some (CBool true) ∧
    r' !! "puissance_kw" = Some (CNum (of_Z 150)) ∧
    r' !! "categorie_puissance" = Some (CStr "DC_ultra").
Proof. eexists. repeat split; reflexivity. Qed.

End DerivedFields.

Lemma rated_power_clipped_witness :
  ∃ r' kw,
    rows (Cleaning.clean_irve Sample.parse_float Sample.str_float
            Examples.power_only) !! 0%nat = Some r' ∧
    r' !! "puissance_kw" = Some (CNum kw) ∧
    kw = of_Z 0.
Proof.
  destruct (rated_power_clipped Sample.parse_float Sample.str_float
              Examples.power_only 0) as [H _].
  destruct (H {[ "puissance_nominale" := CNum (of_Z (-5)) ]}
              eq_refl eq_refl) as (r' & kw & Hr' & Hkw & _ & _ & H5).
  exists r', kw. split; [exact Hr' |]. split; [exact Hkw |].
  apply H5. reflexivity.
Defined.




Lemma coordinates_consolidated_witness :
  ∃ r',
    rows (Cleaning.clean_irve Sample.parse_float Sample.str_float
            Examples.three_latitudes) !! 0%nat = Some r' ∧
    r' !! "latitude" = Some (CNum (Sample.parse_float "48.85")) ∧
    r' !! "longitude" = Some (CNum (Fin 2.35)).
Proof.
  destruct (coordinates_consolidated Sample.parse_float Sample.str_float
              Examples.three_latitudes 0
              {[ "latitude" := CStr "unknown";
                 "consolidated_latitude" := CNum NaN;
                 "consolidated_lagitude" := CStr "48.85";
                 "consolidated_longitude" := CNum (Fin 2.35) ]} eq_refl)
    as (r' & Hr' & Hlat & _ & Hlon & _).
  exists r'. split; [exact Hr' |]. split.
  - exact (Hlat eq_refl).
  - exact (Hlon eq_refl).
Defined.

(** C7, as stated, fails.  In a table whose latitude column holds the text
    [abc] and which has no consolidated column, the text does not parse, no
    fallback exists, and yet the cleaned latitude is not absent: it is the
    text itself. *)
Lemma latitude_left_unparsed_without_fallback :
  Sample.parse_float "abc" = NaN ∧
  has Examples.latitude_text "consolidated_latitude" = false ∧
  has Examples.latitude_text "consolidated_lagitude" = false ∧
  (r' ← rows (Cleaning.clean_irve Sample.parse_float Sample.str_float
                Examples.latitude_text) !! 0%nat;
   r' !! "latitude") = Some (CStr "abc") ∧
  isna (CStr "abc") = false.
Proof. repeat split; vm_compute; reflexivity. Qed.

Lemma power_category_half_open_bins_witness :
  ∃ kw cat,
    Examples.scenario_cleaned !! "puissance_kw" = Some (CNum kw) ∧
    Examples.scenario_cleaned !! "categorie_puissance" = Some (CStr cat) ∧
    cat = Cleaning._bin kw.
Proof.
  destruct (power_category_half_open_bins Sample.parse_float
              Sample.str_float Examples.scenario 0 Examples.scenario_cleaned
              eq_refl eq_refl)
    as (kw & cat & Hkw & Hcat & Hbin & _).
  exists kw, cat. repeat split; assumption.
Defined.

(** C5, as stated, fails.  The prepared scenario row has the power category
    [DC_ultra], not [DC_rapide] (dc_fast): its rated power, 150, is not at
    most 149. *)
Lemma scenario_category_is_not_dc_fast :
  (df ← DataProcessing.prepare Sample.parse_float Sample.str_float
          Examples.scenario;
   r' ← rows df !! 0%nat;
   r' !! "categorie_puissance") = Some (CStr "DC_ultra") ∧
  CStr "DC_ultra" ≠ CStr "DC_rapide" ∧
  fle (of_Z 150) (of_Z 149) = false.
Proof. repeat split; try (vm_compute; reflexivity). discriminate. Qed.

(** * The power classes of the summary tables *)

Section PowerClasses.

Import Cleaning Prep Spec2.

Lemma categorize_power_Fin (q : Q) :
  categorize_power (Fin q) =
    if flt (Fin q) (Fin 7) then "<7 kW"
    else if flt (Fin q) (Fin 22) then "AC 7–22"
    else if flt (Fin q) (Fin 50) then "DC 24–49"
    else if flt (Fin q) (Fin 150) then "DC 50–149"
    else if flt (Fin q) (Fin 300) then "HPC 150–299"
    else "HPC ≥300".
Proof. reflexivity. Qed.

(** X1. [categorize_power] returns each class on exactly one interval,
    closed on the left and open on the right; the class named DC 24-49
    starts at 22 kW. *)
Theorem categorize_power_intervals (kw : float64) :
  (categorize_power kw = "inconnue" ↔ isnan kw = true) ∧
  (categorize_power kw = "<7 kW" ↔ flt kw (of_Z 7) = true) ∧
  (categorize_power kw = "AC 7–22" ↔
     fge kw (of_Z 7) = true ∧ flt kw (of_Z 22) = true) ∧
  (categorize_power kw = "DC 24–49" ↔
     fge kw (of_Z 22) = true ∧ flt kw (of_Z 50) = true) ∧
  (categorize_power kw = "DC 50–149" ↔
     fge kw (of_Z 50) = true ∧ flt kw (of_Z 150) = true) ∧
  (categorize_power kw = "HPC 150–299" ↔
     fge kw (of_Z 150) = true ∧ flt kw (of_Z 300) = true) ∧
  (categorize_power kw = "HPC ≥300" ↔ fge kw (of_Z 300) = true).
Proof.
  destruct kw as [| | q |];
    try (vm_compute; repeat split; intros; destruct_and?; congruence).
  rewrite categorize_power_Fin. unfold fge, of_Z.
  change (inject_Z 7) with 7%Q; change (inject_Z 22) with 22%Q;
    change (inject_Z 50) with 50%Q; change (inject_Z 150) with 150%Q;
    change (inject_Z 300) with 300%Q.
  destruct (flt_Fin_spec q 7), (flt_Fin_spec q 22), (flt_Fin_spec q 50),
    (flt_Fin_spec q 150), (flt_Fin_spec q 300),
    (fle_Fin_spec 7 q), (fle_Fin_spec 22 q), (fle_Fin_spec 50 q),
    (fle_Fin_spec 150 q), (fle_Fin_spec 300 q);
    try lra; simpl; repeat split; intros; destruct_and?; congruence.
Qed.

(** X2. The classes of [categorize_power] and the categories of [_bin] rank
    a finite power alike, except at 7 and 22 kW and strictly between 49 and
    50 and between 149 and 150 kW, where [categorize_power] ranks it one
    class away. *)
Theorem power_classes_agree_off_boundaries (q : Q) :
  tier_of_bin (_bin (Fin q)) = tier_of_class (categorize_power (Fin q)) ↔
  ¬ ((q == 7)%Q ∨ (q == 22)%Q ∨ (49 < q ∧ q < 50)%Q ∨ (149 < q ∧ q < 150)%Q).
Proof.
  rewrite categorize_power_Fin, bin_Fin.
  destruct (flt_Fin_spec q 7), (flt_Fin_spec q 22), (flt_Fin_spec q 50),
    (flt_Fin_spec q 150), (flt_Fin_spec q 300),
    (fle_Fin_spec q 7), (fle_Fin_spec q 22), (fle_Fin_spec q 49),
    (fle_Fin_spec q 149);
    try lra; simpl; (split; [intros Heq; try discriminate Heq; lra |]);
    intros Hn; try reflexivity; exfalso; apply Hn; lra.
Qed.

End PowerClasses.

(** * Text: strip, upper and the normalisers built on them *)

Section TextFacts.

Import Spec2.

Local Ltac by_cases_on_char c :=
  destruct c as [[] [] [] [] [] [] [] []]; vm_compute; intros;
  repeat split; congruence.

Lemma is_space_upper_char (c : ascii) : is_space (upper_char c) = is_space c.
Proof. by_cases_on_char c. Qed.

Lemma lower_upper_char (c : ascii) :
  lower_char (upper_char c) = lower_char c.
Proof. by_cases_on_char c. Qed.

Lemma upper_upper_char (c : ascii) : upper_char (upper_char c) = upper_char c.
Proof. by_cases_on_char c. Qed.

Lemma digit_not_space (c : ascii) : is_digit c = true → is_space c = false.
Proof. by_cases_on_char c. Qed.

Lemma digit_upper_char (c : ascii) : is_digit c = true → upper_char c = c.
Proof. by_cases_on_char c. Qed.

Lemma digit_not_sign (c : ascii) :
  is_digit c = true →
  Ascii.eqb c "+"%char || Ascii.eqb c "-"%char = false.
Proof. by_cases_on_char c. Qed.

Lemma digit_not_A_B (c : ascii) :
  is_digit c = true → c ≠ "A"%char ∧ c ≠ "B"%char.
Proof. by_cases_on_char c. Qed.

Lemma lower_upper (s : string) : lower (upper s) = lower s.
Proof.
  induction s as [| c s IH]; [done |].
  simpl. by rewrite lower_upper_char, IH.
Qed.

Lemma upper_upper (s : string) : upper (upper s) = upper s.
Proof.
  induction s as [| c s IH]; [done |].
  simpl. by rewrite upper_upper_char, IH.
Qed.

Lemma upper_empty (s : string) : upper s = EmptyString → s = EmptyString.
Proof. by destruct s. Qed.

Lemma lstrip_upper (s : string) : lstrip (upper s) = upper (lstrip s).
Proof.
  induction s as [| c s IH]; [done |].
  simpl. rewrite is_space_upper_char. by destruct (is_space c).
Qed.

Lemma rstrip_upper (s : string) : rstrip (upper s) = upper (rstrip s).
Proof.
  induction s as [| c s IH]; [done |].
  simpl. rewrite IH, is_space_upper_char.
  destruct (rstrip s) as [| d t]; simpl; [by destruct (is_space c) | done].
Qed.

Lemma strip_upper (s : string) : strip (upper s) = upper (strip s).
Proof. unfold strip. by rewrite lstrip_upper, rstrip_upper. Qed.

(** ** White space around a text *)

Lemma lstrip_all_space (l : string) :
  all_space l = true → lstrip l = EmptyString.
Proof.
  induction l as [| c l IH]; [done |].
  simpl. intros [Hc Hl]%andb_true_iff. rewrite Hc. auto.
Qed.

Lemma rstrip_all_space (t : string) :
  all_space t = true → rstrip t = EmptyString.
Proof.
  induction t as [| c t IH]; [done |].
  simpl. intros [Hc Hl]%andb_true_iff. by rewrite IH, Hc.
Qed.

Lemma lstrip_app_space (l s : string) :
  all_space l = true → lstrip (l ++ s) = lstrip s.
Proof.
  induction l as [| c l IH]; [done |].
  simpl. intros [Hc Hl]%andb_true_iff. rewrite Hc. auto.
Qed.

Lemma rstrip_app_space (s t : string) :
  all_space t = true → rstrip (s ++ t) = rstrip s.
Proof.
  intros Ht. induction s as [| c s IH]; simpl.
  - by apply rstrip_all_space.
  - by rewrite IH.
Qed.

(** [lstrip] either consumes the whole text or stops in front of it. *)
Lemma lstrip_app (s t : string) :
  lstrip s ≠ EmptyString → lstrip (s ++ t) = lstrip s ++ t.
Proof.
  induction s as [| c s IH]; [done |].
  simpl. destruct (is_space c); [exact IH | done].
Qed.

Lemma lstrip_empty_all_space (s : string) :
  lstrip s = EmptyString → all_space s = true.
Proof.
  induction s as [| c s IH]; [done |].
  simpl. destruct (is_space c); [exact IH | done].
Qed.

Lemma strip_padding (l s t : string) :
  all_space l = true → all_space t = true →
  strip (l ++ s ++ t) = strip s.
Proof.
  intros Hl Ht. unfold strip. rewrite lstrip_app_space by done.
  destruct (string_dec (lstrip s) EmptyString) as [He | Hne].
  - rewrite He. apply lstrip_empty_all_space in He.
    rewrite (lstrip_all_space (s ++ t)); [done |].
    clear -He Ht. induction s as [| c s IH]; [done |].
    simpl in *. apply andb_true_iff in He as [-> ?]. auto.
  - rewrite lstrip_app by done. by apply rstrip_app_space.
Qed.

(** ** [strip] is idempotent *)

Lemma lstrip_starts_clean (s : string) : starts_clean (lstrip s) = true.
Proof.
  induction s as [| c s IH]; [done |].
  simpl. destruct (is_space c) eqn:Hc; [exact IH |]. simpl. by rewrite Hc.
Qed.

Lemma lstrip_clean (s : string) : starts_clean s = true → lstrip s = s.
Proof.
  destruct s as [| c s]; [done |].
  simpl. intros Hc%negb_true_iff. by rewrite Hc.
Qed.

Lemma rstrip_starts_clean (s : string) :
  starts_clean s = true → starts_clean (rstrip s) = true.
Proof.
  destruct s as [| c s]; [done |].
  cbn [starts_clean rstrip]. intros Hc.
  destruct (rstrip s); cbn [starts_clean]; [| exact Hc].
  apply negb_true_iff in Hc. rewrite Hc. exact (proj2 (negb_true_iff _) Hc).
Qed.

Lemma rstrip_rstrip (s : string) : rstrip (rstrip s) = rstrip s.
Proof.
  induction s as [| c s IH]; [done |].
  simpl. destruct (rstrip s) as [| d t] eqn:Hr.
  - destruct (is_space c) eqn:Hc; simpl; [done | by rewrite Hc].
  - cbn [rstrip] in IH |- *. by rewrite IH.
Qed.

Lemma strip_strip (s : string) : strip (strip s) = strip s.
Proof.
  unfold strip.
  rewrite (lstrip_clean (rstrip (lstrip s)))
    by apply rstrip_starts_clean, lstrip_starts_clean.
  apply rstrip_rstrip.
Qed.

(** ** Digits *)

Lemma all_digits_lstrip (s : string) : all_digits s = true → lstrip s = s.
Proof.
  destruct s as [| c s]; [done |].
  simpl. intros [Hc _]%andb_true_iff. by rewrite (digit_not_space c Hc).
Qed.

Lemma all_digits_rstrip (s : string) : all_digits s = true → rstrip s = s.
Proof.
  induction s as [| c s IH]; [done |].
  simpl. intros [Hc Hs]%andb_true_iff. rewrite (IH Hs).
  destruct s; [by rewrite (digit_not_space c Hc) | done].
Qed.

Lemma all_digits_strip (s : string) : all_digits s = true → strip s = s.
Proof.
  intros Hs. unfold strip. rewrite all_digits_lstrip by done.
  by apply all_digits_rstrip.
Qed.

Lemma all_digits_upper (s : string) : all_digits s = true → upper s = s.
Proof.
  induction s as [| c s IH]; [done |].
  simpl. intros [Hc Hs]%andb_true_iff.
  by rewrite (digit_upper_char c Hc), (IH Hs).
Qed.

End TextFacts.

(** * The page loaders: booleans and department codes *)

Section PageLoaders.

Import Spec2 Pages.

Variable str_float : Q → string.

Local Abbreviation to_bool := (to_bool str_float).
Local Abbreviation norm_code := (norm_code str_float).

(** X3. [to_bool] reads back the booleans the cleaning wrote ([True],
    [False]), reads a missing value as false, ignores the ASCII white space
    around a text, and ignores the case of a text made of ASCII
    characters. *)
Theorem to_bool_reads_booleans (l s t : string) :
  all_space l = true → all_space t = true →
  to_bool (CStr (l ++ s ++ t)) = to_bool (CStr s) ∧
  (all_ascii s = true → to_bool (CStr (upper s)) = to_bool (CStr s)) ∧
  (∀ b, to_bool (CBool b) = b) ∧
  to_bool CNone = false ∧
  to_bool (CNum NaN) = false.
Proof.
  intros Hl Ht. unfold Pages.to_bool. cbn [str].
  rewrite strip_padding by done.
  rewrite strip_upper, lower_upper.
  split; [reflexivity |]. split; [intros _; reflexivity |].
  split; [by intros [] |]. split; reflexivity.
Qed.

Lemma zfill_two_digits (a b : ascii) :
  is_digit a = true →
  zfill 2 (String a (String b EmptyString)) = String a (String b EmptyString).
Proof.
  intros Ha. unfold zfill. cbn [String.length Nat.sub zeros].
  by rewrite (digit_not_sign a Ha).
Qed.

Lemma zfill_one_digit (a : ascii) :
  is_digit a = true →
  zfill 2 (String a EmptyString) = String "0"%char (String a EmptyString).
Proof.
  intros Ha. unfold zfill. cbn [String.length Nat.sub zeros].
  by rewrite (digit_not_sign a Ha).
Qed.

(** A text of one or two digits goes through [norm_code] as [zfill]. *)
Lemma norm_code_digits (s : string) :
  isdigit s = true → (String.length s ≤ 2)%nat →
  norm_code (CStr s) = zfill 2 s.
Proof.
  intros Hd Hlen. unfold Pages.norm_code. cbn [str].
  assert (all_digits s = true) as Hall by (by destruct s).
  rewrite (all_digits_strip s Hall), (all_digits_upper s Hall).
  destruct (String.eqb_spec s "2A") as [-> | _]; [discriminate Hd |].
  destruct (String.eqb_spec s "2B") as [-> | _]; [discriminate Hd |].
  cbn [orb]. rewrite Hd. by rewrite (proj2 (Nat.leb_le _ _) Hlen).
Qed.

(** X4. [norm_code] pads a department code of one or two digits to two
    digits and leaves it made of digits. *)
Theorem norm_code_pads_digits (s : string) :
  isdigit s = true → (String.length s ≤ 2)%nat →
  norm_code (CStr s) = zfill 2 s ∧
  String.length (norm_code (CStr s)) = 2%nat ∧
  all_digits (norm_code (CStr s)) = true.
Proof.
  intros Hd Hlen. rewrite (norm_code_digits s Hd Hlen).
  split; [reflexivity |].
  destruct s as [| a [| b [| c s]]]; [done | | | simpl in Hlen; lia].
  - apply andb_true_iff in Hd as [Ha _].
    rewrite (zfill_one_digit a Ha). simpl. by rewrite Ha.
  - pose proof Hd as Hd'. apply andb_true_iff in Hd' as [Ha _].
    rewrite (zfill_two_digits a b Ha). split; [done | exact Hd].
Qed.

(** X5. Normalising a department code twice is normalising it once. *)
Theorem norm_code_idempotent (x : cell) :
  norm_code (CStr (norm_code x)) = norm_code x.
Proof.
  unfold Pages.norm_code at 2 3.
  set (s := upper (strip (str str_float x))).
  assert (upper (strip s) = s) as Hfix.
  { unfold s. by rewrite strip_upper, strip_strip, upper_upper. }
  destruct (String.eqb s "2A" || String.eqb s "2B") eqn:Hcorse.
  - unfold Pages.norm_code. cbn [str]. by rewrite Hfix, Hcorse.
  - destruct (isdigit s && (String.length s <=? 2)%nat) eqn:Hdig.
    + apply andb_true_iff in Hdig as [Hd Hlen%Nat.leb_le].
      destruct s as [| a [| b [| c s']]] eqn:Hs;
        [done | | | simpl in Hlen; lia].
      * pose proof Hd as [Ha _]%andb_true_iff.
        rewrite (zfill_one_digit a Ha).
        rewrite norm_code_digits; [| simpl; by rewrite Ha | simpl; lia].
        apply zfill_two_digits. reflexivity.
      * pose proof Hd as [Ha _]%andb_true_iff.
        rewrite (zfill_two_digits a b Ha).
        rewrite norm_code_digits; [| exact Hd | simpl; lia].
        by apply zfill_two_digits.
    + unfold Pages.norm_code. cbn [str]. by rewrite Hfix, Hcorse, Hdig.
Qed.

(** X6. A department code derived by the cleaning, two digits at the head of
    a postal code, is left as it is by [norm_code]; it is never one of the
    Corsican codes 2A and 2B, which only a source that already holds them
    can bring to the map. *)
Theorem norm_code_of_cleaned_departement (s d : string) :
  extract_2_digits s = Some d →
  norm_code (CStr d) = d ∧ d ≠ "2A" ∧ d ≠ "2B".
Proof.
  destruct s as [| a [| b s]]; [done.. |].
  cbn [extract_2_digits].
  destruct (is_digit a && is_digit b) eqn:Hab; [| done].
  intros [= <-]. apply andb_true_iff in Hab as [Ha Hb].
  split; [| split].
  - rewrite norm_code_digits; [by apply zfill_two_digits | | simpl; lia].
    simpl. by rewrite Ha, Hb.
  - intros [= _ ->]. by destruct (digit_not_A_B _ Hb).
  - intros [= _ ->]. by destruct (digit_not_A_B _ Hb).
Qed.

End PageLoaders.

Lemma to_bool_reads_booleans_witness :
  Pages.to_bool Sample.str_float (CStr ("  " ++ "Oui" ++ " ")) = true.
Proof.
  destruct (to_bool_reads_booleans Sample.str_float "  " "Oui" " "
              eq_refl eq_refl) as [-> _].
  reflexivity.
Defined.

Lemma norm_code_pads_digits_witness :
  Pages.norm_code Sample.str_float (CStr "1") = "01".
Proof.
  destruct (norm_code_pads_digits Sample.str_float "1" eq_refl
              ltac:(simpl; lia)) as [-> _].
  reflexivity.
Defined.

Lemma norm_code_of_cleaned_departement_witness :
  Pages.norm_code Sample.str_float (CStr "75") = "75".
Proof.
  destruct (norm_code_of_cleaned_departement Sample.str_float "75010" "75"
              eq_refl) as [-> _].
  reflexivity.
Defined.

(** * Postal code and department *)

Section PostalFormat.

Import Spec2.

Variable str_float : Q → string.

Lemma digits_then_boundary_take (n : nat) (s : string) :
  digits_then_boundary n s = true →
  String.length (take n s) = n ∧ all_digits (take n s) = true ∧
  starts_with (take n s) s = true.
Proof.
  revert s; induction n as [| n IH]; intros [| c s]; simpl; try done.
  intros [Hc Hs]%andb_true_iff. destruct (IH s Hs) as (Hlen & Hd & Hp).
  rewrite Hlen, Hc, Hd, Hp, Ascii.eqb_refl. done.
Qed.

Lemma contains_tail (sub : string) (c : ascii) (s : string) :
  contains sub s = true → contains sub (String c s) = true.
Proof. intros H. cbn [contains]. rewrite H. apply orb_true_r. Qed.

Lemma contains_head (sub s : string) :
  starts_with sub s = true → contains sub s = true.
Proof. intros H. destruct s; cbn [contains]; by rewrite H. Qed.

Lemma search_cp_from_format (prev_word : bool) (s t : string) :
  search_cp_from prev_word s = Some t →
  String.length t = 5%nat ∧ all_digits t = true ∧ contains t s = true.
Proof.
  revert prev_word; induction s as [| c s IH]; intros prev_word; [done |].
  cbn [search_cp_from].
  destruct (negb prev_word && digits_then_boundary 5 (String c s)) eqn:Hhit.
  - intros [= <-]. apply andb_true_iff in Hhit as [_ Hd].
    destruct (digits_then_boundary_take _ _ Hd) as (Hlen & Hall & Hp).
    split; [exact Hlen | split; [exact Hall |]].
    by apply contains_head.
  - intros Hs. destruct (IH _ Hs) as (Hlen & Hall & Hin).
    split; [exact Hlen | split; [exact Hall |]].
    by apply contains_tail.
Qed.

Lemma extract_2_digits_of_digits (t : string) :
  (2 ≤ String.length t)%nat → all_digits t = true →
  extract_2_digits t = Some (take 2 t).
Proof.
  destruct t as [| a [| b t]]; simpl; [lia.. |].
  intros _ [Ha [Hb _]%andb_true_iff]%andb_true_iff.
  by rewrite Ha, Hb.
Qed.

(** X7. The postal code taken from an address is made of five digits, stands
    in the address, and the department read from it by
    [add_departement_from_cp_simple] is its first two digits. *)
Theorem extract_code_postal_five_digits (adresse : cell) (t : string) :
  Cleaning.extract_code_postal str_float adresse = Some t →
  String.length t = 5%nat ∧ all_digits t = true ∧
  contains t (str str_float adresse) = true ∧
  extract_2_digits t = Some (take 2 t).
Proof.
  unfold Cleaning.extract_code_postal.
  destruct (isna adresse); [done |].
  destruct (search_cp (str str_float adresse)) as [g |] eqn:Hs; [| done].
  intros [= <-]. unfold search_cp in Hs.
  destruct (search_cp_from_format _ _ _ Hs) as (Hlen & Hall & Hin).
  repeat split; try done.
  apply extract_2_digits_of_digits; [lia | done].
Qed.

End PostalFormat.

Lemma extract_code_postal_five_digits_witness :
  extract_2_digits "75010" = Some "75".
Proof.
  destruct (extract_code_postal_five_digits Sample.str_float
              (CStr "12 Rue de Paris, 75010 Paris") "75010" eq_refl)
    as (_ & _ & _ & H).
  exact H.
Defined.

(** * The cleaned table: columns carried, dropped and derived *)

Section CleanedTable.

Import Spec Spec2 Cleaning.

Variable parse_float : string → float64.
Variable str_float : Q → string.

Implicit Types (df : DataFrame) (r : gmap string cell) (c : string).

Local Abbreviation clean_irve := (clean_irve parse_float str_float).
Local Abbreviation derive_access_24_7 := (derive_access_24_7 str_float).
Local Abbreviation derive_est_publique := (derive_est_publique str_float).
Local Abbreviation derive_statut := (derive_statut str_float).

Local Ltac known_label := apply label_in; vm_compute; reflexivity.
Local Ltac unknown_label :=
  refine (label_not_in _ _ _); vm_compute; reflexivity.

(** The table on which the three text rules run. *)
Local Abbreviation typed df :=
  (derive_is_dc
     (derive_power parse_float
        (consolidate_coordinates parse_float (select_present df)))).

Local Abbreviation last_steps df :=
  (drop_if_present "consolidated_longitude"
     (drop_if_present "consolidated_latitude"
        (reorder (drop_if_present "code_insee_commune" df)))).

Lemma keeps_last_steps c df :
  c ≠ "code_insee_commune" → c ≠ "consolidated_latitude" →
  c ≠ "consolidated_longitude" →
  keeps c df (last_steps df).
Proof.
  intros H1 H2 H3.
  eapply keeps_trans;
    [exact (keeps_drop_if_present c "code_insee_commune" df H1) |].
  eapply keeps_trans; [apply keeps_reorder |].
  eapply keeps_trans;
    [exact (keeps_drop_if_present c "consolidated_latitude" _ H2) |].
  exact (keeps_drop_if_present c "consolidated_longitude" _ H3).
Qed.

Lemma known_is_not_derived c :
  c ∈ cols →
  c ≠ "puissance_kw" ∧ c ≠ "categorie_puissance" ∧ c ≠ "is_dc" ∧
  c ≠ "access_24_7" ∧ c ≠ "est_publique" ∧ c ≠ "statut_normalise".
Proof.
  intros Hin.
  repeat split; intros ->; revert Hin; unknown_label.
Qed.

(** Every known column but the two coordinates reaches the text rules as
    the raw table has it. *)
Lemma keeps_typed c df :
  c ∈ cols → c ≠ "latitude" → c ≠ "longitude" → keeps c df (typed df).
Proof.
  intros Hin Hlat Hlon.
  destruct (known_is_not_derived c Hin) as (? & ? & ? & _).
  eapply keeps_trans;
    [exact (keeps_select_present c df Hin) |].
  eapply keeps_trans;
    [exact (keeps_consolidate parse_float c _ Hlat Hlon) |].
  eapply keeps_trans;
    [exact (keeps_derive_power parse_float c _ ltac:(done) ltac:(done)) |].
  exact (keeps_derive_is_dc c _ ltac:(done)).
Qed.

Lemma clean_irve_from_typed df :
  clean_irve df =
    last_steps
      (derive_statut (derive_est_publique (derive_access_24_7 (typed df)))).
Proof. apply clean_irve_steps. Qed.

Lemma keeps_known c df :
  c ∈ cols →
  c ≠ "latitude" → c ≠ "longitude" → c ≠ "code_insee_commune" →
  c ≠ "consolidated_latitude" → c ≠ "consolidated_longitude" →
  keeps c df (clean_irve df).
Proof.
  intros Hin ? ? ? ? ?.
  destruct (known_is_not_derived c Hin) as (_ & _ & _ & ? & ? & ?).
  rewrite clean_irve_from_typed.
  eapply keeps_trans; [by apply keeps_typed |].
  eapply keeps_trans;
    [exact (keeps_derive_access_24_7 str_float c _ ltac:(done)) |].
  eapply keeps_trans;
    [exact (keeps_derive_est_publique str_float c _ ltac:(done)) |].
  eapply keeps_trans;
    [exact (keeps_derive_statut str_float c _ ltac:(done)) |].
  by apply keeps_last_steps.
Qed.

(** X8. [clean_irve] carries every known column, other than the coordinates
    it consolidates and the three columns it drops, from the raw table to
    the cleaned one: same presence, same cells, row by row. The misspelt
    [consolidated_lagitude] is among them. *)
Theorem clean_irve_carries_known_columns (c : string) (df : DataFrame) :
  c ∈ cols →
  c ∉ ["latitude"; "longitude"; "code_insee_commune";
       "consolidated_latitude"; "consolidated_longitude"] →
  keeps c df (clean_irve df).
Proof.
  intros Hin Hout.
  apply keeps_known; [exact Hin | ..]; intros ->; apply Hout; known_label.
Qed.

Lemma has_drop_if_present_same c df : has (drop_if_present c df) c = false.
Proof.
  unfold drop_if_present. destruct (has df c) eqn:Hc; [| exact Hc].
  rewrite has_drop, String.eqb_refl. apply andb_false_r.
Qed.

Lemma has_keeps c df df' : keeps c df df' → has df' c = has df c.
Proof. by intros (? & _). Qed.

(** X9. The cleaned table has no column besides the known ones and the six
    it derives, never one of the three it drops, and always the two flags
    [access_24_7] and [est_publique]. *)
Theorem clean_irve_column_set (df : DataFrame) :
  (∀ c, has (clean_irve df) c = true →
        (c ∈ cols ∨ c ∈ derived_cols) ∧ c ∉ dropped_cols) ∧
  has (clean_irve df) "access_24_7" = true ∧
  has (clean_irve df) "est_publique" = true.
Proof.
  rewrite clean_irve_from_typed.
  set (df5 := derive_access_24_7 (typed df)).
  set (df6 := derive_est_publique df5).
  set (df7 := derive_statut df6).
  split; [| split].
  - intros c Hc. split.
    + destruct (decide (c ∈ cols)) as [| Hout]; [by left |].
      destruct (decide (c ∈ derived_cols)) as [| Hnew]; [by right |].
      exfalso.
      assert (c ≠ "puissance_kw" ∧ c ≠ "categorie_puissance" ∧
              c ≠ "is_dc" ∧ c ≠ "access_24_7" ∧ c ≠ "est_publique" ∧
              c ≠ "statut_normalise")
        as (? & ? & ? & ? & ? & ?)
        by (repeat split; intros ->; apply Hnew; known_label).
      assert (c ≠ "latitude" ∧ c ≠ "longitude" ∧
              c ≠ "code_insee_commune" ∧ c ≠ "consolidated_latitude" ∧
              c ≠ "consolidated_longitude")
        as (? & ? & ? & ? & ?)
        by (repeat split; intros ->; apply Hout; known_label).
      rewrite (has_keeps c df7 _ ltac:(by apply keeps_last_steps)) in Hc.
      unfold df7, df6, df5 in Hc.
      rewrite (has_keeps c _ _
                 (keeps_derive_statut str_float c _ ltac:(done))) in Hc.
      rewrite (has_keeps c _ _
                 (keeps_derive_est_publique str_float c _ ltac:(done)))
        in Hc.
      rewrite (has_keeps c _ _
                 (keeps_derive_access_24_7 str_float c _ ltac:(done)))
        in Hc.
      rewrite (has_keeps c _ _ (keeps_derive_is_dc c _ ltac:(done))) in Hc.
      rewrite (has_keeps c _ _
                 (keeps_derive_power parse_float c _ ltac:(done)
                    ltac:(done))) in Hc.
      rewrite (has_keeps c _ _
                 (keeps_consolidate parse_float c _ ltac:(done)
                    ltac:(done))) in Hc.
      by rewrite (has_select_present_unknown c df Hout) in Hc.
    + intros Hdrop. unfold dropped_cols in Hdrop.
      apply elem_of_cons in Hdrop as [-> | Hdrop].
      { rewrite (has_keeps _ _ _
                   (keeps_drop_if_present "code_insee_commune"
                      "consolidated_longitude" _ ltac:(done))) in Hc.
        rewrite (has_keeps _ _ _
                   (keeps_drop_if_present "code_insee_commune"
                      "consolidated_latitude" _ ltac:(done))) in Hc.
        rewrite (has_keeps _ _ _
                   (keeps_reorder "code_insee_commune" _)) in Hc.
        by rewrite has_drop_if_present_same in Hc. }
      apply elem_of_cons in Hdrop as [-> | Hdrop].
      { rewrite (has_keeps _ _ _
                   (keeps_drop_if_present "consolidated_latitude"
                      "consolidated_longitude" _ ltac:(done))) in Hc.
        by rewrite has_drop_if_present_same in Hc. }
      apply list_elem_of_singleton in Hdrop as ->.
      by rewrite has_drop_if_present_same in Hc.
  - rewrite (has_keeps "access_24_7" df7 _
               ltac:(by apply keeps_last_steps)).
    unfold df7, df6.
    rewrite (has_keeps _ _ _
               (keeps_derive_statut str_float "access_24_7" _
                  ltac:(done))).
    rewrite (has_keeps _ _ _
               (keeps_derive_est_publique str_float "access_24_7" _
                  ltac:(done))).
    unfold df5, Cleaning.derive_access_24_7.
    destruct (has (typed df) "horaires");
      rewrite has_assign, String.eqb_refl; apply orb_true_r.
  - rewrite (has_keeps "est_publique" df7 _
               ltac:(by apply keeps_last_steps)).
    unfold df7.
    rewrite (has_keeps _ _ _
               (keeps_derive_statut str_float "est_publique" _
                  ltac:(done))).
    unfold df6, Cleaning.derive_est_publique.
    rewrite has_assign, String.eqb_refl. apply orb_true_r.
Qed.


(** ** The three text rules *)

Local Ltac push_append :=
  repeat match goal with
  | |- context [String ?b ?s ++ ?t] =>
      change (String b s ++ t) with (String b (s ++ t))
  end.

Lemma starts_with_app_l (p q s : string) :
  starts_with (p ++ q) s = true → starts_with p s = true.
Proof.
  revert s; induction p as [| a p IH]; intros s; [done |].
  destruct s as [| b s]; [done |]. push_append. cbn [starts_with].
  intros [-> H]%andb_true_iff. by rewrite (IH s H).
Qed.

Lemma contains_prefix (p q s : string) :
  contains (p ++ q) s = true → contains p s = true.
Proof.
  induction s as [| b s IH]; cbn [contains].
  - rewrite !orb_false_r. apply starts_with_app_l.
  - intros [H | H]%orb_true_iff.
    + by rewrite (starts_with_app_l p q _ H).
    + rewrite (IH H). apply orb_true_r.
Qed.

Lemma starts_with_app_r (p q s : string) :
  starts_with (p ++ q) s = true → contains q s = true.
Proof.
  revert s; induction p as [| a p IH]; intros s.
  - apply contains_head.
  - destruct s as [| b s]; [done |]. push_append. cbn [starts_with].
    intros [_ H]%andb_true_iff. apply contains_tail. by apply IH.
Qed.

Lemma contains_suffix (p q s : string) :
  contains (p ++ q) s = true → contains q s = true.
Proof.
  induction s as [| b s IH].
  - cbn [contains]. rewrite orb_false_r. apply starts_with_app_r.
  - intros H. cbn [contains] in H. apply orb_true_iff in H as [H | H].
    + by apply (starts_with_app_r p q).
    + apply contains_tail. by apply IH.
Qed.

Lemma starts_with_app (p s t : string) :
  starts_with p s = true → starts_with p (s ++ t) = true.
Proof.
  revert s; induction p as [| a p IH]; intros s; [done |].
  destruct s as [| b s]; [done |]. push_append. cbn [starts_with].
  intros [-> H]%andb_true_iff. by rewrite (IH s H).
Qed.

Lemma contains_app_l (p s t : string) :
  contains p s = true → contains p (s ++ t) = true.
Proof.
  induction s as [| b s IH].
  - cbn [contains]. rewrite orb_false_r. intros H.
    apply contains_head. by apply (starts_with_app p "" t).
  - intros H. cbn [contains] in H. apply orb_true_iff in H as [H | H].
    + apply contains_head. by apply (starts_with_app p (String b s) t).
    + push_append. apply contains_tail. by apply IH.
Qed.

Lemma contains_app_r (p s t : string) :
  contains p t = true → contains p (s ++ t) = true.
Proof.
  intros H. induction s as [| b s IH]; [exact H |].
  push_append. by apply contains_tail.
Qed.

Lemma lower_app (s t : string) : lower (s ++ t) = lower s ++ lower t.
Proof.
  induction s as [| a s IH]; [done |]. push_append. cbn [lower].
  by rewrite IH.
Qed.

Lemma assign_row c e df i r r' :
  rows df !! i = Some r → rows (assign c e df) !! i = Some r' →
  r' !! c = Some (e r).
Proof.
  intros Hr Hr'. destruct (assign_effect c e df) as [_ E].
  exact (Forall2_lookup_lr _ _ _ _ _ _ E Hr Hr').
Qed.

(** The cell a rule writes is the one the cleaned table shows. *)
Lemma derived_row d e pre final i r1 r' :
  keeps d (assign d e pre) final →
  rows pre !! i = Some r1 → rows final !! i = Some r' →
  r' !! d = Some (e r1).
Proof.
  intros K Hr1 Hr'.
  destruct (assign_effect d e pre) as [Hd _].
  destruct (keeps_back_exists _ _ _ _ _ K Hr') as [r2 Hr2].
  rewrite (keeps_row _ _ _ _ _ _ K Hd Hr2 Hr').
  exact (assign_row d e pre i r1 r2 Hr1 Hr2).
Qed.

Lemma keeps_get c df df' i r r' :
  keeps c df df' → has df c = true →
  rows df !! i = Some r → rows df' !! i = Some r' →
  get r' c = get r c.
Proof.
  intros K Hc Hr Hr'. apply get_agree.
  exact (keeps_row _ _ _ _ _ _ K Hc Hr Hr').
Qed.

Lemma keeps_flagged c df :
  c ∈ cols → c ≠ "latitude" → c ≠ "longitude" →
  keeps c df (derive_access_24_7 (typed df)).
Proof.
  intros Hin Hlat Hlon.
  destruct (known_is_not_derived c Hin) as (_ & _ & _ & ? & _).
  eapply keeps_trans; [by apply keeps_typed |].
  exact (keeps_derive_access_24_7 str_float c _ ltac:(done)).
Qed.

Lemma keeps_published c df :
  c ∈ cols → c ≠ "latitude" → c ≠ "longitude" →
  keeps c df (derive_est_publique (derive_access_24_7 (typed df))).
Proof.
  intros Hin Hlat Hlon.
  destruct (known_is_not_derived c Hin) as (_ & _ & _ & _ & ? & _).
  eapply keeps_trans; [by apply keeps_flagged |].
  exact (keeps_derive_est_publique str_float c _ ltac:(done)).
Qed.

Lemma missing_text_lower (x : cell) :
  isna x = true →
  lower (str str_float x) = "none" ∨ lower (str str_float x) = "nan".
Proof. destruct x as [| [] | |]; try done; [by left | by right]. Qed.

Lemma derive_access_24_7_row pre i r1 r5 :
  rows pre !! i = Some r1 →
  rows (derive_access_24_7 pre) !! i = Some r5 →
  has (derive_access_24_7 pre) "access_24_7" = true ∧
  r5 !! "access_24_7" =
    Some (CBool (if has pre "horaires"
                 then around_the_clock
                        (lower (str str_float (get r1 "horaires")))
                 else false)).
Proof.
  unfold Cleaning.derive_access_24_7.
  destruct (has pre "horaires"); intros Hr1 Hr5.
  - split; [apply assign_effect |].
    exact (assign_row _ _ _ _ _ _ Hr1 Hr5).
  - split; [apply assign_effect |].
    exact (assign_row _ _ _ _ _ _ Hr1 Hr5).
Qed.

Lemma keeps_access_24_7 pre :
  keeps "access_24_7" (derive_access_24_7 pre)
    (last_steps (derive_statut (derive_est_publique
                                  (derive_access_24_7 pre)))).
Proof.
  eapply keeps_trans;
    [exact (keeps_derive_est_publique str_float "access_24_7" _
              ltac:(done)) |].
  eapply keeps_trans;
    [exact (keeps_derive_statut str_float "access_24_7" _ ltac:(done)) |].
  by apply keeps_last_steps.
Qed.

(** X10. [access_24_7] is a boolean on every row of the cleaned table: false
    without a column [horaires] and on a missing cell, else whether the
    lowered text holds one of [24/7], [24h], [24 h]; the fourth fragment of
    the source, [24 heures], adds nothing to [24 h]. *)
Theorem access_24_7_from_opening_hours (df : DataFrame) (i : nat)
    (r : gmap string cell) :
  rows df !! i = Some r →
  ∃ r' b,
    rows (clean_irve df) !! i = Some r' ∧
    r' !! "access_24_7" = Some (CBool b) ∧
    (has df "horaires" = false → b = false) ∧
    (has df "horaires" = true →
       let s := lower (str str_float (get r "horaires")) in
       b = around_the_clock s ∧
       b = contains "24/7" s || contains "24h" s || contains "24 h" s ∧
       (isna (get r "horaires") = true → b = false)).
Proof.
  intros Hr.
  assert (keeps "horaires" df (typed df)) as K
    by (apply keeps_typed; [known_label | done..]).
  destruct (keeps_row_exists _ _ _ _ _ K Hr) as [r1 Hr1].
  pose proof (keeps_access_24_7 (typed df)) as K5.
  rewrite <- clean_irve_from_typed in K5.
  assert (is_Some (rows (derive_access_24_7 (typed df)) !! i))
    as [r5 Hr5].
  { apply lookup_lt_is_Some. unfold Cleaning.derive_access_24_7.
    destruct (has (typed df) "horaires"); cbn [assign rows];
      rewrite length_fmap; by apply lookup_lt_Some in Hr1. }
  destruct (keeps_row_exists _ _ _ _ _ K5 Hr5) as [r' Hr'].
  destruct (derive_access_24_7_row _ _ _ _ Hr1 Hr5) as [Hhas Hcell].
  rewrite <- (keeps_row _ _ _ _ _ _ K5 Hhas Hr5 Hr') in Hcell.
  rewrite (has_keeps _ _ _ K) in Hcell.
  exists r'. destruct (has df "horaires") eqn:Hh.
  - rewrite (keeps_get _ _ _ _ _ _ K Hh Hr Hr1) in Hcell.
    eexists. split; [exact Hr' |]. split; [exact Hcell |].
    split; [done |]. intros _ s. fold s.
    assert (contains "24 heures" s = true → contains "24 h" s = true)
      as Hsub by apply (contains_prefix "24 h" "eures").
    split; [reflexivity |]. split.
    + unfold around_the_clock. destruct (contains "24 heures" s);
        [rewrite (Hsub eq_refl) | ]; by rewrite ?orb_true_r, ?orb_false_r.
    + intros Hna. unfold s.
      by destruct (missing_text_lower _ Hna) as [-> | ->].
  - exists false. by repeat split.
Qed.


Lemma derive_est_publique_row pre i r5 r6 :
  rows pre !! i = Some r5 →
  rows (derive_est_publique pre) !! i = Some r6 →
  has (derive_est_publique pre) "est_publique" = true ∧
  r6 !! "est_publique" =
    Some (CBool
            (contains_any ["public"; "libre accès"; "libre acces"]
               (lower
                  ((if has pre "accessibilite"
                    then str str_float (get r5 "accessibilite") else "")
                   ++ " " ++
                   (if has pre "conditions_acces"
                    then str str_float (get r5 "conditions_acces")
                    else ""))))).
Proof.
  unfold Cleaning.derive_est_publique. intros Hr5 Hr6.
  split; [apply assign_effect |].
  exact (assign_row _ _ _ _ _ _ Hr5 Hr6).
Qed.

Lemma keeps_est_publique pre :
  keeps "est_publique" (derive_est_publique pre)
    (last_steps (derive_statut (derive_est_publique pre))).
Proof.
  eapply keeps_trans;
    [exact (keeps_derive_statut str_float "est_publique" _ ltac:(done)) |].
  by apply keeps_last_steps.
Qed.

Lemma contains_any_member (p : string) (pats : list string) (s : string) :
  p ∈ pats → contains p s = true → contains_any pats s = true.
Proof.
  intros Hin Hp. unfold contains_any. apply existsb_exists.
  exists p. split; [by apply list_elem_of_In | exact Hp].
Qed.

(** X11. [est_publique] is a boolean on every row of the cleaned table.
    When the two texts are written in ASCII and small accented letters, so
    that lowering them changes their ASCII capitals only, it tells whether
    the lowered text of [accessibilite], a space, and that of
    [conditions_acces] holds one of the three fragments, an absent column
    counting as the empty text. A fragment in either text is enough, and
    without the two columns the flag is false. *)
Theorem est_publique_from_access_texts (df : DataFrame) (i : nat)
    (r : gmap string cell) :
  rows df !! i = Some r →
  ∃ r' b,
    rows (clean_irve df) !! i = Some r' ∧
    r' !! "est_publique" = Some (CBool b) ∧
    let a := if has df "accessibilite"
             then str str_float (get r "accessibilite") else "" in
    let c := if has df "conditions_acces"
             then str str_float (get r "conditions_acces") else "" in
    ascii_or_small_latin a = true → ascii_or_small_latin c = true →
    b = contains_any ["public"; "libre accès"; "libre acces"]
          (lower (a ++ " " ++ c)) ∧
    (∀ p, p ∈ ["public"; "libre accès"; "libre acces"] →
          contains p (lower a) = true ∨ contains p (lower c) = true →
          b = true) ∧
    (has df "accessibilite" = false → has df "conditions_acces" = false →
     b = false).
Proof.
  intros Hr.
  set (df5 := derive_access_24_7 (typed df)).
  assert (keeps "accessibilite" df df5) as Ka
    by (apply keeps_flagged; [known_label | done..]).
  assert (keeps "conditions_acces" df df5) as Kc
    by (apply keeps_flagged; [known_label | done..]).
  destruct (keeps_row_exists _ _ _ _ _ Ka Hr) as [r5 Hr5].
  pose proof (keeps_est_publique df5) as K6.
  unfold df5 in K6. rewrite <- clean_irve_from_typed in K6. fold df5 in K6.
  assert (is_Some (rows (derive_est_publique df5) !! i)) as [r6 Hr6].
  { apply lookup_lt_is_Some. unfold Cleaning.derive_est_publique.
    cbn [assign rows]. rewrite length_fmap. by apply lookup_lt_Some in Hr5. }
  destruct (keeps_row_exists _ _ _ _ _ K6 Hr6) as [r' Hr'].
  destruct (derive_est_publique_row _ _ _ _ Hr5 Hr6) as [Hhas Hcell].
  rewrite <- (keeps_row _ _ _ _ _ _ K6 Hhas Hr6 Hr') in Hcell.
  rewrite (has_keeps _ _ _ Ka), (has_keeps _ _ _ Kc) in Hcell.
  assert ((if has df "accessibilite"
           then str str_float (get r5 "accessibilite") else "") =
          (if has df "accessibilite"
           then str str_float (get r "accessibilite") else "")) as Ea.
  { destruct (has df "accessibilite") eqn:Ha; [| done].
    by rewrite (keeps_get _ _ _ _ _ _ Ka Ha Hr Hr5). }
  assert ((if has df "conditions_acces"
           then str str_float (get r5 "conditions_acces") else "") =
          (if has df "conditions_acces"
           then str str_float (get r "conditions_acces") else "")) as Ec.
  { destruct (has df "conditions_acces") eqn:Hc; [| done].
    by rewrite (keeps_get _ _ _ _ _ _ Kc Hc Hr Hr5). }
  rewrite Ea, Ec in Hcell.
  exists r'. eexists. split; [exact Hr' |]. split; [exact Hcell |].
  intros a c. fold a c. intros _ _. split; [reflexivity |]. split.
  - intros p Hp Hin. apply (contains_any_member p); [exact Hp |].
    rewrite !lower_app. destruct Hin as [Hin | Hin].
    + by apply contains_app_l.
    + apply contains_app_r. by apply contains_app_r.
  - intros Ha Hc. unfold a, c. by rewrite Ha, Hc.
Qed.

Lemma derive_statut_row pre src i r6 r7 :
  (if has pre "etat_pdc" then Some "etat_pdc"
   else if has pre "statut_pdc" then Some "statut_pdc" else None)
    = Some src →
  rows pre !! i = Some r6 →
  rows (derive_statut pre) !! i = Some r7 →
  has (derive_statut pre) "statut_normalise" = true ∧
  r7 !! "statut_normalise" =
    Some (CStr
            (let s := lower (str str_float (get r6 src)) in
             if contains_any ["en service"; "disponible";
                              "opération"; "operation"] s
             then "en_service"
             else if contains_any ["hors service"; "panne";
                                   "indisponible"] s
             then "hors_service"
             else if contains_any ["maintenance"] s
             then "maintenance"
             else "inconnu")).
Proof.
  unfold Cleaning.derive_statut. intros -> Hr6 Hr7.
  split; [apply assign_effect |].
  exact (assign_row _ _ _ _ _ _ Hr6 Hr7).
Qed.

Lemma derive_statut_absent pre :
  has pre "etat_pdc" = false → has pre "statut_pdc" = false →
  derive_statut pre = pre.
Proof. unfold Cleaning.derive_statut. by intros -> ->. Qed.

Lemma derive_statut_length pre :
  length (rows (derive_statut pre)) = length (rows pre).
Proof.
  by destruct (keeps_derive_statut str_float "id_station" pre)
    as (_ & ? & _).
Qed.

(** X12. [statut_normalise] reads [etat_pdc], or [statut_pdc] when the table
    has no [etat_pdc]; without both the column is not created. On a status
    written in ASCII and small accented letters, so that lowering it changes
    its ASCII capitals only, the label is one of four, the first rule that
    matches wins, and since a text that holds [indisponible] holds
    [disponible], such a point is labelled [en_service]: [hors_service] is
    reached by [hors service] and [panne] only. A missing status is
    [inconnu]. *)
Theorem statut_normalise_first_match (df : DataFrame) (i : nat)
    (r : gmap string cell) :
  rows df !! i = Some r →
  ∃ r',
    rows (clean_irve df) !! i = Some r' ∧
    (has df "etat_pdc" = false → has df "statut_pdc" = false →
     has (clean_irve df) "statut_normalise" = false) ∧
    (∀ src,
       (if has df "etat_pdc" then Some "etat_pdc"
        else if has df "statut_pdc" then Some "statut_pdc" else None)
         = Some src →
       ascii_or_small_latin (str str_float (get r src)) = true →
       let s := lower (str str_float (get r src)) in
       ∃ label,
         r' !! "statut_normalise" = Some (CStr label) ∧
         label ∈ ["en_service"; "hors_service"; "maintenance"; "inconnu"] ∧
         (contains "indisponible" s = true → label = "en_service") ∧
         (label = "hors_service" ↔
            contains_any ["en service"; "disponible";
                          "opération"; "operation"] s = false ∧
            contains_any ["hors service"; "panne"] s = true) ∧
         (isna (get r src) = true → label = "inconnu")).
Proof.
  intros Hr.
  set (df6 := derive_est_publique (derive_access_24_7 (typed df))).
  assert (keeps "etat_pdc" df df6) as Ke
    by (apply keeps_published; [known_label | done..]).
  assert (keeps "statut_pdc" df df6) as Ks
    by (apply keeps_published; [known_label | done..]).
  destruct (keeps_row_exists _ _ _ _ _ Ke Hr) as [r6 Hr6].
  assert (is_Some (rows (derive_statut df6) !! i)) as [r7 Hr7].
  { apply lookup_lt_is_Some. rewrite derive_statut_length.
    by apply lookup_lt_Some in Hr6. }
  assert (keeps "statut_normalise" (derive_statut df6) (clean_irve df))
    as K7 by (rewrite clean_irve_from_typed; by apply keeps_last_steps).
  destruct (keeps_row_exists _ _ _ _ _ K7 Hr7) as [r' Hr'].
  exists r'. split; [exact Hr' |]. split.
  - intros He Hs. rewrite (has_keeps _ _ _ K7).
    rewrite derive_statut_absent;
      [| by rewrite (has_keeps _ _ _ Ke) | by rewrite (has_keeps _ _ _ Ks)].
    unfold df6.
    rewrite (has_keeps _ _ _
               (keeps_derive_est_publique str_float "statut_normalise" _
                  ltac:(done))).
    rewrite (has_keeps _ _ _
               (keeps_derive_access_24_7 str_float "statut_normalise" _
                  ltac:(done))).
    rewrite (has_keeps _ _ _
               (keeps_derive_is_dc "statut_normalise" _ ltac:(done))).
    rewrite (has_keeps _ _ _
               (keeps_derive_power parse_float "statut_normalise" _
                  ltac:(done) ltac:(done))).
    rewrite (has_keeps _ _ _
               (keeps_consolidate parse_float "statut_normalise" _
                  ltac:(done) ltac:(done))).
    apply has_select_present_unknown. unknown_label.
  - intros src Hsrc _ s.
    assert (has df src = true ∧ keeps src df df6) as [Hhas Ksrc].
    { destruct (has df "etat_pdc") eqn:He.
      - injection Hsrc as <-. by split.
      - destruct (has df "statut_pdc") eqn:Hs; [| done].
        injection Hsrc as <-. by split. }
    rewrite <- (has_keeps _ _ _ Ke), <- (has_keeps _ _ _ Ks) in Hsrc.
    destruct (derive_statut_row _ _ _ _ _ Hsrc Hr6 Hr7) as [Hnew Hcell].
    rewrite <- (keeps_row _ _ _ _ _ _ K7 Hnew Hr7 Hr') in Hcell.
    rewrite (keeps_get _ _ _ _ _ _ Ksrc Hhas Hr Hr6) in Hcell.
    fold s in Hcell. cbv zeta in Hcell.
    eexists. split; [exact Hcell |].
    assert (contains "indisponible" s = true →
            contains "disponible" s = true) as Hsub
      by apply (contains_suffix "in" "disponible").
    assert (contains "indisponible" s = true →
            contains_any ["en service"; "disponible";
                          "opération"; "operation"] s = true) as Hind.
    { intros H. apply (contains_any_member "disponible"); [known_label |].
      by apply Hsub. }
    assert (contains "indisponible" s = false →
            contains_any ["hors service"; "panne"; "indisponible"] s =
            contains_any ["hors service"; "panne"] s) as Hdead.
    { intros H. cbn [contains_any existsb]. by rewrite H. }
    assert (isna (get r src) = true →
            contains_any ["en service"; "disponible";
                          "opération"; "operation"] s = false ∧
            contains_any ["hors service"; "panne"] s = false ∧
            contains_any ["maintenance"] s = false) as Hmissing.
    { intros Hna. unfold s.
      by destruct (missing_text_lower _ Hna) as [-> | ->]. }
    destruct (contains_any ["en service"; "disponible";
                            "opération"; "operation"] s) eqn:H1.
    { split; [known_label |]. split; [done |].
      split; [split; [intros [=] | by intros [? _]] |].
      intros Hna. by destruct (Hmissing Hna) as (? & _). }
    destruct (contains "indisponible" s) eqn:H5;
      [specialize (Hind eq_refl); discriminate Hind |].
    rewrite (Hdead eq_refl).
    destruct (contains_any ["hors service"; "panne"] s) eqn:H2.
    { split; [known_label |]. split; [done |]. split; [done |].
      intros Hna. by destruct (Hmissing Hna) as (_ & ? & _). }
    destruct (contains_any ["maintenance"] s) eqn:H3.
    { split; [known_label |]. split; [done |].
      split; [split; [intros [=] | by intros [_ ?]] |].
      intros Hna. by destruct (Hmissing Hna) as (_ & _ & ?). }
    split; [known_label |]. split; [done |].
    split; [split; [intros [=] | by intros [_ ?]] | done].
Qed.


(** ** Column order *)

Lemma NoDup_front_cols : NoDup front_cols.
Proof. apply (bool_decide_unpack _). vm_compute. reflexivity. Qed.

(** X13. The reordering loses no column and adds none: on a table whose
    labels are distinct, the new header is a permutation of the old one,
    made of the front columns the table has, in the order of the front list,
    then of the other columns in their old order. *)
Theorem reorder_is_a_permutation (df : DataFrame) :
  NoDup (columns df) →
  columns (reorder df) ≡ₚ columns df ∧
  ∃ rest,
    columns (reorder df) = (List.filter (has df) front_cols ++ rest)%list ∧
    rest = List.filter (λ c, negb (bool_decide (c ∈ front_cols)))
             (columns df).
Proof.
  clear parse_float str_float.
  intros Hnd. unfold reorder. cbn [select columns].
  set (front := List.filter (has df) front_cols).
  assert (∀ c, c ∈ front ↔ c ∈ front_cols ∧ c ∈ columns df) as Hfront.
  { intros c. unfold front. rewrite !list_elem_of_In, filter_In.
    rewrite <- !list_elem_of_In, has_true. done. }
  assert (List.filter (λ c, negb (bool_decide (c ∈ front))) (columns df) =
          List.filter (λ c, negb (bool_decide (c ∈ front_cols)))
            (columns df)) as Hrest.
  { apply filter_ext_in. intros c Hc%list_elem_of_In. f_equal.
    apply bool_decide_ext. rewrite Hfront. tauto. }
  split; [| eexists; split; [by rewrite Hrest | reflexivity]].
  apply NoDup_Permutation; [| exact Hnd |].
  - apply NoDup_app. split; [| split].
    + apply NoDup_ListNoDup, List.NoDup_filter, NoDup_ListNoDup.
      exact NoDup_front_cols.
    + intros c Hc Hc'. apply list_elem_of_In, filter_In in Hc' as [_ Hc'].
      apply negb_true_iff, bool_decide_eq_false in Hc'. done.
    + apply NoDup_ListNoDup, List.NoDup_filter, NoDup_ListNoDup.
      exact Hnd.
  - intros c. rewrite elem_of_app, Hfront. split.
    + intros [[_ H] | H]; [done |].
      apply list_elem_of_In, filter_In in H as [H _].
      by apply list_elem_of_In.
    + intros H. destruct (decide (c ∈ front_cols)); [by left | right].
      apply list_elem_of_In, filter_In. split; [by apply list_elem_of_In |].
      apply negb_true_iff, bool_decide_eq_false. rewrite Hfront. tauto.
Qed.

(** ** Sections 2 and 5 of the page: postal code and department *)

Lemma search_cp_departement (s t : string) :
  search_cp s = Some t → extract_2_digits t = Some (take 2 t).
Proof.
  unfold search_cp. intros Hs.
  destruct (search_cp_from_format _ _ _ Hs) as (Hlen & Hall & _).
  apply extract_2_digits_of_digits; [lia | done].
Qed.

Lemma prepare_rows (df_raw : DataFrame) :
  has df_raw "adresse_station" = true →
  ∃ df2,
    DataProcessing.prepare parse_float str_float df_raw
      = Some (clean_irve df2) ∧
    length (rows (clean_irve df2)) = length (rows df_raw) ∧
    ∀ i r, rows df_raw !! i = Some r →
      ∃ r',
        rows (clean_irve df2) !! i = Some r' ∧
        match Geo.extract_code_postal str_float
                (get r "adresse_station") with
        | Some t =>
            r' !! "code_postal" = Some (CStr t) ∧
            r' !! "departement" = Some (CStr (take 2 t))
        | None =>
            r' !! "code_postal" = Some CNone ∧
            r' !! "departement" = Some (CNum NaN)
        end.
Proof.
  unfold DataProcessing.prepare. intros ->.
  set (e := λ r : gmap string cell,
         of_option (Geo.extract_code_postal str_float
                      (get r "adresse_station"))).
  set (df1 := assign "code_postal" e df_raw).
  assert (has df1 "code_postal" = true) as Hcp by apply assign_effect.
  unfold add_departement_from_cp_simple. rewrite Hcp.
  set (e2 := λ r : gmap string cell,
         match extract_2_digits (str str_float (get r "code_postal")) with
         | Some d => CStr d
         | None => CNum NaN
         end).
  set (df2 := assign "departement" e2 df1).
  assert (keeps "code_postal" df2 (clean_irve df2)) as Kcp
    by (apply keeps_known; [known_label | done..]).
  assert (keeps "departement" df2 (clean_irve df2)) as Kdep
    by (apply keeps_known; [known_label | done..]).
  assert (has df2 "departement" = true) as Hdep2 by apply assign_effect.
  assert (has df2 "code_postal" = true) as Hcp2.
  { unfold df2. by rewrite has_assign, Hcp. }
  exists df2. split; [reflexivity |]. split.
  { destruct Kcp as (_ & -> & _). unfold df2, df1. cbn [assign rows].
    by rewrite !length_fmap. }
  intros i r Hr.
  assert (rows df1 !! i = Some (<["code_postal" := e r]> r)) as Hr1.
  { unfold df1. cbn [assign rows]. by rewrite list_lookup_fmap, Hr. }
  set (r1 := <["code_postal" := e r]> r) in *.
  assert (rows df2 !! i = Some (<["departement" := e2 r1]> r1)) as Hr2.
  { unfold df2. cbn [assign rows]. by rewrite list_lookup_fmap, Hr1. }
  destruct (keeps_row_exists _ _ _ _ _ Kcp Hr2) as [r' Hr'].
  exists r'. split; [exact Hr' |].
  rewrite (keeps_row _ _ _ _ _ _ Kcp Hcp2 Hr2 Hr').
  rewrite (keeps_row _ _ _ _ _ _ Kdep Hdep2 Hr2 Hr').
  rewrite lookup_insert_eq, lookup_insert_ne by done.
  assert (r1 !! "code_postal" = Some (e r)) as Hlook
    by (unfold r1; by rewrite lookup_insert_eq).
  assert (get r1 "code_postal" = e r) as Hget
    by (unfold get; by rewrite Hlook).
  rewrite Hlook. unfold e2. rewrite Hget. unfold e, Geo.extract_code_postal.
  destruct (isna (get r "adresse_station")); [split; reflexivity |].
  destruct (search_cp (str str_float (get r "adresse_station")))
    as [t |] eqn:Hs; [| split; reflexivity].
  cbn [of_option str]. by rewrite (search_cp_departement _ _ Hs).
Qed.

(** X14. The page needs [adresse_station] ([KeyError] otherwise). With it,
    and with a connector column that is absent or holds text on some row,
    so that the cleaning returns, the cleaned table has the rows of the raw
    one, and each row whose address is written in ASCII holds in
    [code_postal] the code found in its address, or [None], and in
    [departement] the first two digits of that code, or [NaN] without a
    code. *)
Theorem prepare_postal_code_and_departement (df_raw : DataFrame) :
  (has df_raw "adresse_station" = false →
   DataProcessing.prepare parse_float str_float df_raw = None) ∧
  (has df_raw "adresse_station" = true →
   (has df_raw "connecteur" = true →
    holds_text "connecteur" df_raw = true) →
   ∃ df,
     DataProcessing.prepare parse_float str_float df_raw = Some df ∧
     length (rows df) = length (rows df_raw) ∧
     ∀ i r, rows df_raw !! i = Some r →
       all_ascii (str str_float (get r "adresse_station")) = true →
       ∃ r',
         rows df !! i = Some r' ∧
         match Geo.extract_code_postal str_float
                 (get r "adresse_station") with
         | Some t =>
             r' !! "code_postal" = Some (CStr t) ∧
             r' !! "departement" = Some (CStr (take 2 t))
         | None =>
             r' !! "code_postal" = Some CNone ∧
             r' !! "departement" = Some (CNum NaN)
         end).
Proof.
  split.
  - unfold DataProcessing.prepare. by intros ->.
  - intros Ha _.
    destruct (prepare_rows df_raw Ha) as (df2 & Hp & Hlen & Hrow).
    exists (clean_irve df2). split; [exact Hp |]. split; [exact Hlen |].
    intros i r Hr _. exact (Hrow i r Hr).
Qed.

Lemma count_dropped {A : Type} (f : A → bool) (l : list A) :
  (length l - length (List.filter (λ x, negb (f x)) l))%nat =
  length (List.filter f l).
Proof.
  induction l as [| x l IH]; [done |].
  cbn [List.filter length]. destruct (f x); cbn [negb length].
  - pose proof (filter_length_le (λ x, negb (f x)) l). lia.
  - exact IH.
Qed.

(** X15. Section 5 raises when the table has no [code_postal] ([KeyError])
    or no row (the share of removed rows divides by the row count).
    Otherwise it keeps the rows that have a postal code, in order, and the
    count it shows is the number of rows without one. *)
Theorem drop_without_postal_code_counts (df : DataFrame) :
  match DataProcessing.drop_without_postal_code df with
  | None => has df "code_postal" = false ∨ rows df = []
  | Some step =>
      has df "code_postal" = true ∧ rows df ≠ [] ∧
      columns (DataProcessing.after_postal step) = columns df ∧
      rows (DataProcessing.after_postal step) =
        List.filter (λ r, negb (isna (get r "code_postal"))) (rows df) ∧
      DataProcessing.nb_suppr step =
        length (List.filter (λ r, isna (get r "code_postal")) (rows df))
  end.
Proof.
  unfold DataProcessing.drop_without_postal_code.
  destruct (has df "code_postal"); [| by left].
  destruct (Nat.eqb_spec (length (rows df)) 0) as [H0 | H0].
  - right. by apply nil_length_inv.
  - split; [done |]. split; [by intros E; rewrite E in H0 |].
    split; [done |]. split; [done |].
    cbn [DataProcessing.after_postal DataProcessing.nb_suppr dropna keep
         columns rows].
    apply (count_dropped (λ r, isna (get r "code_postal"))).
Qed.


(** ** The power rule on a cleaned table *)

Lemma has_keep (mask : gmap string cell → bool) df c :
  has (keep mask df) c = has df c.
Proof. reflexivity. Qed.

Lemma rows_keep (mask : gmap string cell → bool) df r :
  r ∈ rows (keep mask df) → r ∈ rows df.
Proof.
  cbn [keep rows]. intros H%list_elem_of_In%filter_In.
  apply list_elem_of_In, H.
Qed.

Lemma all_comparable_numbers c df :
  (∀ r, r ∈ rows df → ∃ x, r !! c = Some (CNum x)) →
  DataProcessing.all_comparable c df = true.
Proof.
  intros H. apply forallb_forall. intros r Hr%list_elem_of_In.
  apply bool_decide_eq_true. destruct (H r Hr) as [x Hx].
  unfold get. by rewrite Hx.
Qed.

Lemma remove_power_outliers_total df :
  (has df "puissance_kw" = true →
   DataProcessing.all_comparable "puissance_kw" df = true) →
  is_Some (DataProcessing.remove_power_outliers df).
Proof.
  unfold DataProcessing.remove_power_outliers. intros H.
  destruct (has df "puissance_kw"); [| by eexists].
  rewrite (H eq_refl). by eexists.
Qed.

Lemma clean_irve_power_number df r' :
  has (clean_irve df) "puissance_kw" = true →
  r' ∈ rows (clean_irve df) →
  ∃ x, r' !! "puissance_kw" = Some (CNum x).
Proof.
  intros Hkw [i Hr']%list_elem_of_lookup.
  destruct (has df "puissance_nominale") eqn:Hpn.
  - assert (is_Some (rows df !! i)) as [r Hr].
    { apply lookup_lt_is_Some.
      rewrite <- (clean_irve_length parse_float str_float df).
      by apply lookup_lt_Some in Hr'. }
    destruct (clean_irve_power parse_float str_float df i r r' Hpn Hr Hr')
      as (_ & Hcell & _).
    eexists. exact Hcell.
  - by rewrite (clean_irve_no_power parse_float str_float "puissance_kw" df
                  ltac:(by left) Hpn) in Hkw.
Qed.

(** X16. The count and the filter of the power rule never raise on a
    cleaned table, whatever rows were removed from it in between:
    [puissance_kw], when the cleaning made it, holds numbers only. *)
Theorem power_rule_accepts_cleaned_table (df : DataFrame)
    (mask : gmap string cell → bool) :
  is_Some (DataProcessing.remove_power_outliers
             (keep mask (clean_irve df))).
Proof.
  apply remove_power_outliers_total. rewrite has_keep. intros Hkw.
  apply all_comparable_numbers. intros r' Hr'.
  exact (clean_irve_power_number df r' Hkw (rows_keep mask _ r' Hr')).
Qed.

End CleanedTable.

(** * The outlier rules: what the counts add up to *)

Section OutlierCounts.

Import Spec DataProcessing.

Lemma power_cases (x : float64) :
  (fle x (of_Z 400) = true ∧ fgt x (of_Z 400) = false ∧ isnan x = false) ∨
  (fle x (of_Z 400) = false ∧ fgt x (of_Z 400) = true ∧ isnan x = false) ∨
  (fle x (of_Z 400) = false ∧ fgt x (of_Z 400) = false ∧ isnan x = true).
Proof.
  destruct (isnan x) eqn:Hnan.
  - right; right. destruct x; try discriminate Hnan. by vm_compute.
  - destruct (fle x (of_Z 400)) eqn:Hle.
    + left. by rewrite (fle_fgt_exclusive _ _ Hle).
    + right; left. destruct (fgt_or_fle x (of_Z 400) Hnan eq_refl) as [H | H].
      * by rewrite H in Hle.
      * by rewrite H.
Qed.

(** X17. The power rule removes more rows than the count it shows: the rows
    above 400 kW, which it counts, and the rows of unknown power, which it
    does not. Rows kept, rows counted and rows of unknown power add up to
    the table. *)
Theorem power_rule_counts (df : DataFrame) (step : power_step) :
  has df "puissance_kw" = true →
  remove_power_outliers df = Some step →
  ∃ n,
    nb_outliers step = Some n ∧
    (length (rows (after_power step)) + n +
     length (List.filter (λ r, isnan (num (get r "puissance_kw")))
               (rows df)) = length (rows df))%nat.
Proof.
  unfold remove_power_outliers. intros ->.
  destruct (all_comparable "puissance_kw" df); [| done].
  intros [= <-]. eexists. split; [reflexivity |].
  cbn [after_power keep rows].
  induction (rows df) as [| r l IH]; [done |].
  cbn [List.filter].
  destruct (power_cases (num (get r "puissance_kw")))
    as [(-> & -> & ->) | [(-> & -> & ->) | (-> & -> & ->)]];
    cbn [length]; lia.
Qed.

(** X18. The geographic rule counts every row it removes: rows kept and rows
    counted add up to the table. *)
Theorem geo_rule_counts (df : DataFrame) (step : geo_step) :
  has df "latitude" = true → has df "longitude" = true →
  remove_geo_outliers df = Some step →
  ∃ n,
    nb_geo_out step = Some n ∧
    (n + length (rows (after_geo step)) = length (rows df))%nat.
Proof.
  unfold remove_geo_outliers. intros -> ->. cbn [andb].
  destruct (all_comparable "latitude" df && all_comparable "longitude" df);
    [| done].
  destruct (Nat.min 5000 (length (rows df)) <=? length (plottable df))%nat;
    [| done].
  intros [= <-]. eexists. split; [reflexivity |].
  cbn [after_geo keep rows]. apply filter_split.
Qed.

(** X19. On a table of at most 5000 rows whose coordinates are numbers or
    missing, the sample drawn for the map of the geographic rule raises
    exactly when a coordinate is missing: it asks for as many points as the
    table has rows, among the rows that have both coordinates. *)
Theorem geo_rule_small_table (df : DataFrame) :
  has df "latitude" = true → has df "longitude" = true →
  all_comparable "latitude" df = true →
  all_comparable "longitude" df = true →
  (length (rows df) ≤ 5000)%nat →
  remove_geo_outliers df = None ↔
  ∃ r, r ∈ rows df ∧
       (isna (get r "latitude") = true ∨ isna (get r "longitude") = true).
Proof.
  intros Hlat Hlon Clat Clon Hsmall.
  unfold remove_geo_outliers. rewrite Hlat, Hlon, Clat, Clon. cbn [andb].
  rewrite (Nat.min_r _ _ Hsmall).
  pose proof (filter_all
                (λ r, negb (isna (get r "latitude")) &&
                      negb (isna (get r "longitude"))) (rows df)) as Hall.
  fold (plottable df) in Hall.
  destruct (Nat.leb_spec (length (rows df)) (length (plottable df)))
    as [Hle | Hlt].
  - split; [done |]. intros (r & Hr & Hna). exfalso.
    pose proof (proj1 Hall Hle r Hr) as Hboth.
    apply andb_true_iff in Hboth as [H1%negb_true_iff H2%negb_true_iff].
    destruct Hna as [Hna | Hna]; congruence.
  - split; [intros _ | done].
    destruct (filter_some _ _ Hlt) as (r & Hr & Hf). exists r.
    split; [exact Hr |].
    apply andb_false_iff in Hf as [Hf | Hf]; apply negb_false_iff in Hf;
      auto.
Qed.

End OutlierCounts.

(** * The column resolver: loose matches and results *)

Section ResolverFacts.

Import Io Spec Spec2 Re.

Local Ltac by_cases_on_ascii c :=
  destruct c as [[] [] [] [] [] [] [] []]; vm_compute; intros;
  repeat split; congruence.

Lemma word_not_meta (c : ascii) :
  is_word c = true → c ≠ "."%char ∧ c ≠ "*"%char.
Proof. by_cases_on_ascii c. Qed.

Lemma lower_char_newline (c : ascii) :
  Ascii.eqb (lower_char c) "010"%char = Ascii.eqb c "010"%char.
Proof. by_cases_on_ascii c. Qed.

Lemma no_newline_lower (s : string) : no_newline (lower s) = no_newline s.
Proof.
  induction s as [| c s IH]; [done |].
  cbn [lower no_newline]. by rewrite lower_char_newline, IH.
Qed.

Lemma parse_one (c d : ascii) (p : string) :
  d ≠ "*"%char →
  parse (String c (String d p)) =
    One (if Ascii.eqb c "."%char then Dot else Lit c)
      :: parse (String d p).
Proof.
  intros Hd. destruct d as [[] [] [] [] [] [] [] []]; try reflexivity.
  by destruct Hd.
Qed.

(** A pattern made of word characters is read as itself. *)
Lemma parse_word (cand : string) (d : ascii) (p : string) :
  all_word cand = true → d ≠ "*"%char →
  parse (cand ++ String d p) =
    (((λ c, One (Lit c)) <$> list_ascii_of_string cand)
       ++ parse (String d p))%list.
Proof.
  intros Hw Hd. induction cand as [| c cand IH]; [done |].
  cbn [all_word] in Hw. apply andb_true_iff in Hw as [Hc Hw].
  destruct (word_not_meta c Hc) as [Hdot _].
  change (String c cand ++ String d p)
    with (String c (cand ++ String d p)).
  cbn [list_ascii_of_string fmap list_fmap app].
  rewrite <- (IH Hw). destruct cand as [| c' cand].
  - change ("" ++ String d p) with (String d p).
    rewrite (parse_one c d p Hd).
    by rewrite (proj2 (Ascii.eqb_neq _ _) Hdot).
  - change (String c' cand ++ String d p)
      with (String c' (cand ++ String d p)).
    cbn [all_word] in Hw. apply andb_true_iff in Hw as [Hc' _].
    rewrite (parse_one c c' _ (proj2 (word_not_meta c' Hc'))).
    by rewrite (proj2 (Ascii.eqb_neq _ _) Hdot).
Qed.

Lemma match_here_star (a : atom) (rest : list item) (s : string) :
  match_here (Star a :: rest) s =
    match_here rest s ||
    match s with
    | String c s' => atom_matches a c && match_here (Star a :: rest) s'
    | EmptyString => false
    end.
Proof. by destruct s. Qed.

Lemma match_any (s : string) :
  no_newline s = true → match_here [Star Dot] s = true.
Proof.
  induction s as [| c s IH]; [done |].
  cbn [no_newline]. intros [Hc Hs]%andb_true_iff.
  rewrite match_here_star. cbn [atom_matches].
  by rewrite Hc, (IH Hs), orb_true_r.
Qed.

Lemma match_literal (cand : list ascii) (s : string) :
  no_newline s = true →
  match_here (((λ c, One (Lit c)) <$> cand) ++ [Star Dot])%list s =
    starts_with (string_of_list_ascii cand) s.
Proof.
  revert s; induction cand as [| a cand IH]; intros s Hs.
  - by apply match_any.
  - destruct s as [| c s]; [done |].
    cbn [no_newline] in Hs. apply andb_true_iff in Hs as [_ Hs].
    cbn [fmap list_fmap app match_here atom_matches string_of_list_ascii
         starts_with].
    f_equal. exact (IH s Hs).
Qed.

Lemma match_somewhere (rest : list item) (cand s : string) :
  (∀ t, no_newline t = true → match_here rest t = starts_with cand t) →
  no_newline s = true →
  match_here (Star Dot :: rest) s = contains cand s.
Proof.
  intros Hrest. induction s as [| c s IH]; intros Hs.
  - rewrite match_here_star, (Hrest "" Hs). reflexivity.
  - rewrite match_here_star, (Hrest _ Hs). cbn [contains].
    cbn [no_newline] in Hs. apply andb_true_iff in Hs as [Hc Hs].
    cbn [atom_matches]. by rewrite Hc, (IH Hs).
Qed.

Lemma fullmatch_substring (cand s : string) :
  all_word cand = true → no_newline s = true →
  fullmatch (".*" ++ cand ++ ".*") s = contains cand s.
Proof.
  intros Hw Hs. unfold fullmatch.
  change (".*" ++ cand ++ ".*")
    with (String "."%char (String "*"%char (cand ++ ".*"))).
  change (parse (String "."%char (String "*"%char (cand ++ ".*"))))
    with (Star Dot :: parse (cand ++ ".*")).
  rewrite (parse_word cand "."%char "*" Hw ltac:(done)).
  change (parse ".*") with [Star Dot].
  apply match_somewhere; [| exact Hs].
  intros t Ht. rewrite (match_literal _ t Ht).
  by rewrite string_of_list_ascii_of_string.
Qed.

(** X20. For candidates made of letters, digits and underscores, as all the
    lists of the module are, the loose match of a column is a substring
    search: some candidate stands somewhere in the lowered label. *)
Theorem loose_match_is_substring_search (candidates : list string)
    (c : string) :
  forallb all_word candidates = true →
  no_newline c = true →
  loose fullmatch candidates c = contains_any candidates (lower c).
Proof.
  intros Hw Hc. unfold loose, contains_any.
  induction candidates as [| cand rest IH]; [done |].
  cbn [forallb] in Hw. apply andb_true_iff in Hw as [Hcand Hrest].
  cbn [existsb]. rewrite (IH Hrest).
  by rewrite fullmatch_substring; [| | rewrite no_newline_lower].
Qed.

Variable re_fullmatch : string → string → bool.

Lemma first_exact_some (low : gmap string string)
    (candidates : list string) (c : string) :
  first_exact low candidates = Some c →
  ∃ cand, cand ∈ candidates ∧ low !! cand = Some c.
Proof.
  induction candidates as [| cand rest IH]; [done |].
  cbn [first_exact]. destruct (low !! cand) as [c' |] eqn:Hlow.
  - intros [= <-]. exists cand. split; [by left | done].
  - intros H. destruct (IH H) as (cand' & Hin & Hc).
    exists cand'. split; [by right | done].
Qed.

Lemma first_exact_none (low : gmap string string)
    (candidates : list string) :
  first_exact low candidates = None →
  ∀ cand, cand ∈ candidates → low !! cand = None.
Proof.
  induction candidates as [| cand rest IH]; intros H cand' Hin.
  - by apply elem_of_nil in Hin.
  - cbn [first_exact] in H. destruct (low !! cand) eqn:Hlow; [done |].
    apply elem_of_cons in Hin as [-> | Hin]; [done | by apply IH].
Qed.

Lemma lowered_some (cols : list string) (cand c : string) :
  lowered cols !! cand = Some c → c ∈ cols ∧ lower c = cand.
Proof.
  rewrite lowered_lookup. intros Hlast.
  apply last_Some_elem_of in Hlast.
  apply list_elem_of_In, filter_In in Hlast as [Hin Heq].
  split; [by apply list_elem_of_In | by apply String.eqb_eq].
Qed.

Lemma lowered_none (cols : list string) (cand c : string) :
  lowered cols !! cand = None → c ∈ cols → lower c ≠ cand.
Proof.
  rewrite lowered_lookup. intros Hlast Hin Heq.
  apply last_None in Hlast.
  assert (c ∈ exact_columns cols cand) as Hc.
  { apply list_elem_of_In, filter_In.
    split; [by apply list_elem_of_In | by apply String.eqb_eq]. }
  rewrite Hlast in Hc. by apply elem_of_nil in Hc.
Qed.

(** X21. What the resolver returns is a column of the table, one that some
    candidate names up to the case of the column or matches loosely; it
    returns nothing only when no column and no candidate go together in
    either way. *)
Theorem first_col_is_a_column (df : DataFrame) (candidates : list string) :
  match _first_col re_fullmatch df candidates with
  | Some c =>
      c ∈ columns df ∧
      ∃ cand, cand ∈ candidates ∧
        (lower c = cand ∨
         re_fullmatch (".*" ++ cand ++ ".*") (lower c) = true)
  | None =>
      ∀ c cand, c ∈ columns df → cand ∈ candidates →
        lower c ≠ cand ∧
        re_fullmatch (".*" ++ cand ++ ".*") (lower c) = false
  end.
Proof.
  unfold _first_col.
  destruct (first_exact (lowered (columns df)) candidates) as [c |] eqn:He.
  - destruct (first_exact_some _ _ _ He) as (cand & Hin & Hlow).
    destruct (lowered_some _ _ _ Hlow) as [Hc Heq].
    split; [exact Hc |]. exists cand. auto.
  - rewrite first_loose_find.
    destruct (List.find _ (columns df)) as [c |] eqn:Hl.
    + apply List.find_some in Hl as [Hc Hloose].
      split; [by apply list_elem_of_In |].
      apply existsb_exists in Hloose as (cand & Hin & Hm).
      exists cand. split; [by apply list_elem_of_In | by right].
    + intros c cand Hc Hin. split.
      * apply (lowered_none (columns df) cand c); [| exact Hc].
        by apply (first_exact_none _ _ He).
      * pose proof (List.find_none _ _ Hl c
                      (proj1 (list_elem_of_In _ _) Hc)) as Hno.
        apply not_true_is_false. intros Hm.
        assert (loose re_fullmatch candidates c = true) as Hyes.
        { apply existsb_exists. exists cand.
          split; [by apply list_elem_of_In | exact Hm]. }
        by rewrite Hyes in Hno.
Qed.

End ResolverFacts.

(** * Saving: what the page reports *)

Section SavingFacts.

Import DataProcessing Spec2.

Local Ltac in_log H :=
  repeat (destruct H as [H | H]; [try discriminate H |]);
  try (by destruct H).

(** X22. The save block reports once: the size of the CSV file when the two
    writes and the two size reads went through, else the error. The size of
    the Parquet file is read and never shown. When both files are written
    and a size cannot be read, the page shows the success message of the CSV
    file and then the error. *)
Theorem save_reports_once (d : disk) :
  length (List.filter is_report (save d).1) = 1%nat ∧
  (∀ n, st_info_csv_size n ∈ (save d).1 ↔
        to_csv d = inr tt ∧ to_parquet d = inr tt ∧
        getsize_csv d = inr n ∧ ∃ m, getsize_parquet d = inr m) ∧
  (∀ e, to_csv d = inr tt → to_parquet d = inr tt →
        getsize_csv d = inl e ∨
        ((∃ n, getsize_csv d = inr n) ∧ getsize_parquet d = inl e) →
        (save d).1 =
          [to_csv_called; st_success "Data saved in CSV format";
           to_parquet_called; st_error ("Save error: " ++ e);
           st_write ready_message]).
Proof.
  rewrite save_cases.
  destruct (to_csv d) as [e1 | []], (to_parquet d) as [e2 | []],
    (getsize_csv d) as [e3 | n3], (getsize_parquet d) as [e4 | n4];
    cbn [fst];
    (split; [reflexivity |]);
    (split;
     [ intros n; rewrite !elem_of_cons, elem_of_nil; split;
       [ intros H; in_log H; injection H as ->; eauto
       | intros (H1 & H2 & H3 & m & H4); try discriminate;
         injection H3 as ->; auto 6 ]
     | intros e H1 H2 [H | [[n H] H']]; try discriminate;
       try (injection H as ->); try (injection H' as ->); reflexivity ]).
Qed.

End SavingFacts.

(** * The processed table: what every saved row satisfies *)

Section ProcessedTable.

Import Spec Spec2 Cleaning DataProcessing.

Variable parse_float : string → float64.
Variable str_float : Q → string.

Implicit Types (df : DataFrame) (r : gmap string cell) (c : string).

Local Abbreviation clean_irve := (clean_irve parse_float str_float).
Local Abbreviation prepare := (prepare parse_float str_float).

Lemma has_same_columns df df' c :
  columns df' = columns df → has df' c = has df c.
Proof. unfold has. by intros ->. Qed.

Lemma in_filter (f : gmap string cell → bool) (l : list (gmap string cell))
    r :
  r ∈ List.filter f l → r ∈ l ∧ f r = true.
Proof.
  intros [Hin Hf]%list_elem_of_In%filter_In.
  split; [by apply list_elem_of_In | exact Hf].
Qed.

Lemma postal_step_rows df s :
  drop_without_postal_code df = Some s →
  columns (after_postal s) = columns df ∧
  ∀ r, r ∈ rows (after_postal s) →
       r ∈ rows df ∧ isna (get r "code_postal") = false.
Proof.
  unfold drop_without_postal_code.
  destruct (has df "code_postal"); [| done].
  destruct (length (rows df) =? 0)%nat; [done |].
  intros [= <-]. cbn [after_postal dropna keep columns rows].
  split; [done |]. intros r [Hin Hf]%in_filter.
  split; [exact Hin | by apply negb_true_iff].
Qed.

Lemma power_step_rows df s :
  remove_power_outliers df = Some s →
  columns (after_power s) = columns df ∧
  ∀ r, r ∈ rows (after_power s) →
       r ∈ rows df ∧
       (has df "puissance_kw" = true →
        fle (num (get r "puissance_kw")) (of_Z 400) = true).
Proof.
  unfold remove_power_outliers.
  destruct (has df "puissance_kw").
  - destruct (all_comparable "puissance_kw" df); [| done].
    intros [= <-]. cbn [after_power keep columns rows].
    split; [done |]. intros r [Hin Hf]%in_filter. by split.
  - intros [= <-]. cbn [after_power]. split; [done |]. by intros r Hr.
Qed.

Lemma geo_step_rows df s :
  remove_geo_outliers df = Some s →
  columns (after_geo s) = columns df ∧
  ∀ r, r ∈ rows (after_geo s) →
       r ∈ rows df ∧
       (has df "latitude" = true → has df "longitude" = true →
        mask_geo r = true).
Proof.
  unfold remove_geo_outliers.
  destruct (has df "latitude" && has df "longitude") eqn:Hboth.
  - destruct (all_comparable "latitude" df &&
              all_comparable "longitude" df); [| done].
    destruct (Nat.min 5000 (length (rows df)) <=? length (plottable df))%nat;
      [| done].
    intros [= <-]. cbn [after_geo keep columns rows].
    split; [done |]. intros r [Hin Hf]%in_filter. by split.
  - intros [= <-]. cbn [after_geo]. split; [done |]. intros r Hr.
    split; [exact Hr |]. intros Hlat Hlon. by rewrite Hlat, Hlon in Hboth.
Qed.

Lemma clean_irve_power_range df r :
  has (clean_irve df) "puissance_kw" = true →
  r ∈ rows (clean_irve df) →
  ∃ x, r !! "puissance_kw" = Some (CNum x) ∧ flt x (of_Z 0) = false.
Proof.
  intros Hkw [i Hr']%list_elem_of_lookup.
  destruct (has df "puissance_nominale") eqn:Hpn.
  - assert (is_Some (rows df !! i)) as [r0 Hr0].
    { apply lookup_lt_is_Some.
      rewrite <- (clean_irve_length parse_float str_float df).
      by apply lookup_lt_Some in Hr'. }
    destruct (clean_irve_power parse_float str_float df i r0 r Hpn Hr0 Hr')
      as (_ & Hcell & _).
    eexists. split; [exact Hcell |]. apply clip_lower_0_not_negative.
  - by rewrite (clean_irve_no_power parse_float str_float "puissance_kw" df
                  ltac:(by left) Hpn) in Hkw.
Qed.

Lemma power_in_range (x : float64) :
  flt x (of_Z 0) = false → fle x (of_Z 400) = true →
  ∃ q, x = Fin q ∧ (0 <= q)%Q ∧ (q <= 400)%Q.
Proof.
  destruct x as [| | q |]; try discriminate.
  intros Hlow Hhigh. exists q. split; [done |]. split.
  - unfold of_Z in Hlow. change (inject_Z 0) with 0%Q in Hlow.
    by destruct (flt_Fin_spec q 0).
  - by apply fle_Fin in Hhigh.
Qed.

Lemma extract_code_postal_format (adresse : cell) (t : string) :
  Geo.extract_code_postal str_float adresse = Some t →
  String.length t = 5%nat ∧ all_digits t = true.
Proof.
  unfold Geo.extract_code_postal.
  destruct (isna adresse); [done |].
  destruct (search_cp (str str_float adresse)) as [g |] eqn:Hs; [| done].
  intros [= <-]. unfold search_cp in Hs.
  by destruct (search_cp_from_format _ _ _ Hs) as (? & ? & _).
Qed.

(** X23. Every row that reaches the end of the page, through the cleaning,
    the removal of rows without postal code and the two outlier rules, holds
    a postal code of five digits and the department made of its first two; a
    power, if the table has one, that is a number between 0 and 400; and
    coordinates, if the table has the two columns, inside the box. *)
Theorem processed_rows_are_clean (df_raw df : DataFrame)
    (s1 : postal_step) (s2 : power_step) (s3 : geo_step)
    (r : gmap string cell) :
  prepare df_raw = Some df →
  drop_without_postal_code df = Some s1 →
  remove_power_outliers (after_postal s1) = Some s2 →
  remove_geo_outliers (after_power s2) = Some s3 →
  r ∈ rows (after_geo s3) →
  (∃ t, r !! "code_postal" = Some (CStr t) ∧
        String.length t = 5%nat ∧ all_digits t = true ∧
        r !! "departement" = Some (CStr (take 2 t))) ∧
  (has df "puissance_kw" = true →
   ∃ q, r !! "puissance_kw" = Some (CNum (Fin q)) ∧
        (0 <= q)%Q ∧ (q <= 400)%Q) ∧
  (has df "latitude" = true → has df "longitude" = true → in_box r).
Proof.
  intros Hprep Hpostal Hpower Hgeo Hr.
  destruct (postal_step_rows _ _ Hpostal) as [C1 R1].
  destruct (power_step_rows _ _ Hpower) as [C2 R2].
  destruct (geo_step_rows _ _ Hgeo) as [C3 R3].
  destruct (R3 r Hr) as [Hr2 Hbox].
  destruct (R2 r Hr2) as [Hr1 Hmax].
  destruct (R1 r Hr1) as [Hr0 Hcp].
  assert (∀ c, has (after_power s2) c = has df c) as Hcols2.
  { intros c. rewrite (has_same_columns _ _ c C2).
    apply has_same_columns, C1. }
  assert (∀ c, has (after_postal s1) c = has df c) as Hcols1
    by (intros c; apply has_same_columns, C1).
  destruct (has df_raw "adresse_station") eqn:Ha;
    [| unfold DataProcessing.prepare in Hprep; by rewrite Ha in Hprep].
  destruct (prepare_rows parse_float str_float df_raw Ha)
    as (df2 & Hp & Hlen & Hrow).
  rewrite Hp in Hprep. apply (inj Some) in Hprep. subst df.
  split; [| split].
  - apply list_elem_of_lookup in Hr0 as [i Hi].
    assert (is_Some (rows df_raw !! i)) as [r0 Hraw].
    { apply lookup_lt_is_Some. rewrite <- Hlen.
      by apply lookup_lt_Some in Hi. }
    destruct (Hrow i r0 Hraw) as (r' & Hr' & Hcells).
    rewrite Hi in Hr'. injection Hr' as <-.
    destruct (Geo.extract_code_postal str_float (get r0 "adresse_station"))
      as [t |] eqn:Ht.
    + destruct Hcells as [Hc Hd].
      destruct (extract_code_postal_format _ _ Ht) as [Hlen5 Hdigits].
      exists t. auto.
    + destruct Hcells as [Hc _]. unfold get in Hcp. by rewrite Hc in Hcp.
  - intros Hkw.
    destruct (clean_irve_power_range df2 r Hkw Hr0) as (x & Hx & Hlow).
    rewrite Hcols1 in Hmax. specialize (Hmax Hkw).
    unfold get in Hmax. rewrite Hx in Hmax. cbn [default num] in Hmax.
    destruct (power_in_range x Hlow Hmax) as (q & -> & ? & ?).
    exists q. auto.
  - intros Hlat Hlon. apply (proj1 (mask_geo_in_box r)).
    apply Hbox; rewrite Hcols2; assumption.
Qed.

Lemma in_keep (mask : gmap string cell → bool) df r :
  r ∈ rows df → mask r = true → r ∈ rows (keep mask df).
Proof.
  intros Hr Hm. cbn [keep rows]. apply list_elem_of_In, filter_In.
  split; [by apply list_elem_of_In | exact Hm].
Qed.

Lemma geo_rule_text_cell df r (s : string) :
  has df "latitude" = true → has df "longitude" = true →
  r ∈ rows df → get r "latitude" = CStr s →
  remove_geo_outliers df = None.
Proof.
  clear parse_float str_float.
  intros Hlat Hlon Hr Ht. unfold remove_geo_outliers.
  rewrite Hlat, Hlon. cbn [andb].
  assert (all_comparable "latitude" df = false) as ->; [| done].
  apply list_elem_of_In in Hr.
  apply not_true_is_false. intros Hall.
  pose proof (proj1 (forallb_forall _ _) Hall r Hr) as Hok.
  apply bool_decide_eq_true in Hok. rewrite Ht in Hok. by destruct Hok.
Qed.

(** A coordinate of the raw table is a coordinate of the cleaned one. *)
Lemma clean_irve_has_longitude df :
  has df "longitude" = true → has (clean_irve df) "longitude" = true.
Proof.
  intros Hlon. rewrite clean_irve_steps.
  set (df1 := select_present df).
  assert (keeps "longitude" df df1) as K1
    by (apply keeps_select_present; apply label_in; vm_compute; reflexivity).
  rewrite (has_keeps _ _ _
             (keeps_after_coordinates parse_float str_float "longitude"
                (consolidate_coordinates parse_float df1)
                ltac:(by right))).
  unfold Cleaning.consolidate_coordinates.
  rewrite (has_keeps _ _ _
             (keeps_fill_from parse_float "longitude" "latitude"
                "consolidated_lagitude" _ ltac:(done))).
  rewrite (has_keeps _ _ _
             (keeps_fill_from parse_float "longitude" "latitude"
                "consolidated_latitude" _ ltac:(done))).
  destruct (has df1 "consolidated_longitude") eqn:Hc.
  - by destruct (fill_from_effect parse_float "longitude"
                   "consolidated_longitude" df1 ltac:(done) Hc) as [-> _].
  - rewrite (fill_from_absent parse_float _ _ _ Hc).
    by rewrite (has_keeps _ _ _ K1).
Qed.

Lemma clean_irve_keeps_latitude df :
  has df "consolidated_latitude" = false →
  has df "consolidated_lagitude" = false →
  keeps "latitude" df (clean_irve df).
Proof.
  intros Hclat Hclag. rewrite clean_irve_steps.
  set (df1 := select_present df).
  assert (∀ c, c ∈ cols → keeps c df df1) as K1
    by (intros c Hc; by apply keeps_select_present).
  eapply keeps_trans;
    [apply K1; apply label_in; vm_compute; reflexivity |].
  eapply keeps_trans;
    [| exact (keeps_after_coordinates parse_float str_float "latitude"
                (consolidate_coordinates parse_float df1)
                ltac:(by left))].
  apply consolidate_latitude_untouched.
  rewrite (has_keeps _ _ _ (K1 "consolidated_latitude"
             ltac:(apply label_in; vm_compute; reflexivity))).
  rewrite (has_keeps _ _ _ (K1 "consolidated_lagitude"
             ltac:(apply label_in; vm_compute; reflexivity))).
  by rewrite Hclat, Hclag.
Qed.

(** X24. A latitude that the raw table holds as text, in a table without
    consolidated latitude column, is still that text after the cleaning; if
    its row is among those kept until the geographic rule, the rule raises
    on comparing the text with a number ([TypeError]). *)
Theorem geo_rule_rejects_text (df : DataFrame)
    (mask : gmap string cell → bool) (i : nat) (r r' : gmap string cell)
    (s : string) :
  has df "latitude" = true → has df "longitude" = true →
  has df "consolidated_latitude" = false →
  has df "consolidated_lagitude" = false →
  rows df !! i = Some r → r !! "latitude" = Some (CStr s) →
  rows (clean_irve df) !! i = Some r' → mask r' = true →
  r' !! "latitude" = Some (CStr s) ∧
  remove_geo_outliers (keep mask (clean_irve df)) = None.
Proof.
  intros Hlat Hlon Hclat Hclag Hr Hs Hr' Hmask.
  pose proof (clean_irve_keeps_latitude df Hclat Hclag) as K.
  assert (r' !! "latitude" = Some (CStr s)) as Hcell
    by (by rewrite (keeps_row _ _ _ _ _ _ K Hlat Hr Hr')).
  split; [exact Hcell |].
  apply (geo_rule_text_cell _ r' s).
  - rewrite has_keep. by rewrite (has_keeps _ _ _ K).
  - rewrite has_keep. by apply clean_irve_has_longitude.
  - apply in_keep; [| exact Hmask]. by apply list_elem_of_lookup_2 with i.
  - unfold get. by rewrite Hcell.
Qed.

End ProcessedTable.

(** * The theorems above on the example tables *)

Lemma clean_irve_carries_known_columns_witness :
  Spec.keeps "consolidated_lagitude" Examples2.status_table
    (Cleaning.clean_irve Sample.parse_float Sample.str_float
       Examples2.status_table).
Proof.
  apply clean_irve_carries_known_columns.
  - apply label_in. vm_compute. reflexivity.
  - refine (label_not_in _ _ _). vm_compute. reflexivity.
Defined.

Lemma access_24_7_from_opening_hours_witness :
  ∃ r',
    rows (Cleaning.clean_irve Sample.parse_float Sample.str_float
            Examples2.status_table) !! 0%nat = Some r' ∧
    r' !! "access_24_7" = Some (CBool true).
Proof.
  destruct (access_24_7_from_opening_hours Sample.parse_float
              Sample.str_float Examples2.status_table 0
              Examples2.status_row eq_refl)
    as (r' & b & Hr' & Hcell & _ & Hb).
  exists r'. split; [exact Hr' |].
  destruct (Hb eq_refl) as (Hval & _).
  rewrite Hval in Hcell. exact Hcell.
Defined.

Lemma est_publique_from_access_texts_witness :
  ∃ r',
    rows (Cleaning.clean_irve Sample.parse_float Sample.str_float
            Examples2.status_table) !! 0%nat = Some r' ∧
    r' !! "est_publique" = Some (CBool true).
Proof.
  destruct (est_publique_from_access_texts Sample.parse_float
              Sample.str_float Examples2.status_table 0
              Examples2.status_row eq_refl)
    as (r' & b & Hr' & Hcell & Htexts).
  exists r'. split; [exact Hr' |].
  destruct (Htexts eq_refl eq_refl) as (Hval & _).
  rewrite Hval in Hcell. exact Hcell.
Defined.

Lemma statut_normalise_first_match_witness :
  ∃ r',
    rows (Cleaning.clean_irve Sample.parse_float Sample.str_float
            Examples2.status_table) !! 0%nat = Some r' ∧
    r' !! "statut_normalise" = Some (CStr "en_service").
Proof.
  destruct (statut_normalise_first_match Sample.parse_float
              Sample.str_float Examples2.status_table 0
              Examples2.status_row eq_refl)
    as (r' & Hr' & _ & Hsrc).
  exists r'. split; [exact Hr' |].
  destruct (Hsrc "etat_pdc" eq_refl eq_refl)
    as (label & Hcell & _ & Hind & _).
  rewrite (Hind eq_refl) in Hcell. exact Hcell.
Defined.

Lemma reorder_is_a_permutation_witness :
  columns (Cleaning.reorder Examples2.status_table)
    ≡ₚ columns Examples2.status_table.
Proof.
  destruct (reorder_is_a_permutation Examples2.status_table) as [Hperm _].
  - apply (bool_decide_unpack _). vm_compute. reflexivity.
  - exact Hperm.
Defined.

Lemma power_rule_counts_witness :
  ∃ n,
    DataProcessing.nb_outliers Examples2.power_kept = Some n ∧
    (length (rows (DataProcessing.after_power Examples2.power_kept)) + n +
     length (List.filter (λ r, isnan (num (get r "puissance_kw")))
               (rows Examples.power_table))
     = length (rows Examples.power_table))%nat.
Proof.
  apply (power_rule_counts Examples.power_table Examples2.power_kept);
    reflexivity.
Defined.

Lemma geo_rule_counts_witness :
  ∃ n,
    DataProcessing.nb_geo_out Examples2.geo_kept = Some n ∧
    (n + length (rows (DataProcessing.after_geo Examples2.geo_kept))
     = length (rows Examples.geo_small))%nat.
Proof.
  apply (geo_rule_counts Examples.geo_small Examples2.geo_kept);
    reflexivity.
Defined.

Lemma geo_rule_small_table_witness :
  DataProcessing.remove_geo_outliers Examples2.geo_gap = None.
Proof.
  apply (geo_rule_small_table Examples2.geo_gap);
    [reflexivity | reflexivity | reflexivity | reflexivity
    | simpl; lia |].
  exists Examples.no_latitude. split; [| left; reflexivity].
  right. left.
Defined.

Lemma loose_match_is_substring_search_witness :
  Io.loose Re.fullmatch Io.LAT_CANDS "Station_Lat" = true.
Proof.
  rewrite (loose_match_is_substring_search Io.LAT_CANDS "Station_Lat"
             eq_refl eq_refl).
  reflexivity.
Defined.

Lemma processed_rows_are_clean_witness :
  ∃ t,
    (<[ "code_postal" := CStr "75010" ]>
       (<[ "departement" := CStr "75" ]> Examples.scenario_cleaned))
      !! "code_postal" = Some (CStr t) ∧
    String.length t = 5%nat ∧ all_digits t = true ∧
    (<[ "code_postal" := CStr "75010" ]>
       (<[ "departement" := CStr "75" ]> Examples.scenario_cleaned))
      !! "departement" = Some (CStr (take 2 t)).
Proof.
  apply (processed_rows_are_clean Sample.parse_float Sample.str_float
           Examples.scenario Examples.scenario_prepared
           Examples2.scenario_postal Examples2.scenario_power
           Examples2.scenario_geo
           (<[ "code_postal" := CStr "75010" ]>
              (<[ "departement" := CStr "75" ]>
                 Examples.scenario_cleaned))
           eq_refl eq_refl eq_refl eq_refl ltac:(left)).
Defined.


Lemma prepare_postal_code_and_departement_witness :
  ∃ df r',
    DataProcessing.prepare Sample.parse_float Sample.str_float
      Examples.scenario = Some df ∧
    rows df !! 0%nat = Some r' ∧
    r' !! "code_postal" = Some (CStr "75010") ∧
    r' !! "departement" = Some (CStr "75").
Proof.
  destruct (prepare_postal_code_and_departement Sample.parse_float
              Sample.str_float Examples.scenario) as [_ H].
  destruct (H eq_refl (λ _, eq_refl)) as (df & Hp & _ & Hrow).
  destruct (Hrow 0%nat
              {[ "adresse_station" := CStr "12 Rue de Paris, 75010 Paris";
                 "connecteur" := CStr "CCS";
                 "puissance_nominale" := CNum (of_Z 150) ]}
              eq_refl eq_refl) as (r' & Hr' & Hcells).
  exists df, r'. split; [exact Hp |]. split; [exact Hr' |].
  exact Hcells.
Defined.
Lemma geo_rule_rejects_text_witness :
  DataProcessing.remove_geo_outliers
    (keep (λ _, true)
       (Cleaning.clean_irve Sample.parse_float Sample.str_float
          Examples2.text_coordinates)) = None.
Proof.
  refine (proj2
    (geo_rule_rejects_text Sample.parse_float Sample.str_float
       Examples2.text_coordinates (λ _, true) 0
       {[ "latitude" := CStr "abc"; "longitude" := CNum (Fin 2.35) ]}
       (<[ "access_24_7" := CBool false ]>
          (<[ "est_publique" := CBool false ]>
             {[ "latitude" := CStr "abc";
                "longitude" := CNum (Fin 2.35) ]}))
       "abc" _ _ _ _ _ _ _ _)); reflexivity.
Defined.
